(** * Voice chat relay: recognition, conversation, synthesis

    A shallow embedding of the chat endpoint of [main.py] and of the
    Streamlit client script [app.py].  The cloud services (speech
    engine, agent backend), the [wave] reader and the HTTP transport are
    not part of the repository: the server takes them as one record of
    services, the client as the function its POST goes to, and each
    call to one of them is recorded in a trace of events, so that
    statements can speak about what was sent where and in which order.

    What is left out: the [print] lines, which only log; the page
    set-up of the client; and failures of the SDK's constructors, so
    that the speech engine can fail only where its answer is awaited
    ([recognize_once_async().get()], [speak_text_async().get()]).
    Exceptions are the instances of [Exception]. *)

From Stdlib Require Import List String Ascii ZArith Lia Bool.
From Stdlib Require Import Init.Byte Numbers.DecimalString.
Import ListNotations.

Local Open Scope Z_scope.
Local Open Scope string_scope.

(** ** Python values *)

(** A Python [bytes] object. *)
Definition bytes := list byte.

Definition bytes_eq_dec (a b : bytes) : {a = b} + {a <> b} :=
  list_eq_dec Byte.byte_eq_dec a b.

Definition bytes_eqb (a b : bytes) : bool :=
  if bytes_eq_dec a b then true else false.

(** [str(n)] for a Python integer. *)
Definition str_of_int (n : Z) : string :=
  NilZero.string_of_int (Z.to_int n).

(** [sub in s] for two Python strings. *)
Definition contains (sub s : string) : Prop :=
  exists pre post, s = pre ++ sub ++ post.

(** ** Exceptions and the call trace *)

(** The instances of [Exception] the program distinguishes: FastAPI's
    [HTTPException], which the endpoint lets through, and everything
    else, of which only [str(e)] is ever used. *)
Inductive exn : Type :=
| HTTPException (status_code : Z) (detail : string)
| Exception (message : string).

(** What a call into a library outside the repository gives back: the
    message of the exception it raised, or its value. *)
Definition outcome (A : Type) : Type := (string + A)%type.

Inductive result (A : Type) : Type :=
| Return (a : A)
| Raise (e : exn).
Arguments Return {A} a.
Arguments Raise {A} e.

(** [speechsdk.audio.AudioStreamFormat]. *)
Record AudioStreamFormat : Type := {
  samples_per_second : Z;
  bits_per_sample : Z;
  channels : Z
}.

(** [azure.ai.agents.models.ListSortOrder]. *)
Inductive ListSortOrder : Type := ASCENDING | DESCENDING.

(** The observable steps of one request, in program order.  The three
    [Call...] events mark the entry into a stage function; the others
    are the calls that leave the process. *)
Inductive event : Type :=
| UploadRead
| CallRecognition (audio_data : bytes)
| PushStreamWrite (stream_format : AudioStreamFormat) (frames : bytes)
| PushStreamClose
| RecognizeOnce
| CallConversation (user_text : string)
| ThreadsCreate
| MessagesCreate (thread_id role content : string)
| RunsCreateAndProcess (thread_id agent_id : string)
| MessagesList (thread_id : string) (order : ListSortOrder)
| CallSynthesis (text : string)
| SpeakText (text : string).

(** A computation: the events it performed, then how it ended. *)
Definition io (A : Type) : Type := (list event * result A)%type.

Definition trace {A} (m : io A) : list event := fst m.
Definition outcome_of {A} (m : io A) : result A := snd m.

Definition ret {A} (a : A) : io A := ([], Return a).

Definition raise {A} (e : exn) : io A := ([], Raise e).

Definition emit (ev : event) : io unit := ([ev], Return tt).

Definition bind {A B} (m : io A) (f : A -> io B) : io B :=
  match m with
  | (t1, Return a) => let '(t2, r) := f a in ((t1 ++ t2)%list, r)
  | (t1, Raise e) => (t1, Raise e)
  end.

(** [try: m  except Exception as e: h e]. *)
Definition try_except {A} (m : io A) (h : exn -> io A) : io A :=
  match m with
  | (t1, Return a) => (t1, Return a)
  | (t1, Raise e) => let '(t2, r) := h e in ((t1 ++ t2)%list, r)
  end.

(** A library call that raises becomes a raised [Exception]. *)
Definition lift {A} (o : outcome A) : io A :=
  match o with
  | inl message => raise (Exception message)
  | inr a => ret a
  end.

Declare Scope io_scope.
Delimit Scope io_scope with io.
Notation "x <- m ;; k" := (bind m (fun x => k))
  (at level 61, m at next level, k at level 200, right associativity) : io_scope.
Notation "m ;; k" := (bind m (fun _ => k))
  (at level 61, k at level 200, right associativity) : io_scope.
Local Open Scope io_scope.

(** ** The speech SDK's result objects *)

(** [speechsdk.ResultReason], the members a recognizer or a synthesizer
    can report. *)
Inductive ResultReason : Type :=
| NoMatch
| Canceled
| RecognizingSpeech
| RecognizedSpeech
| RecognizedKeyword
| SynthesizingAudioStarted
| SynthesizingAudio
| SynthesizingAudioCompleted.

(** [speechsdk.CancellationReason]. *)
Inductive CancellationReason : Type :=
| Error
| EndOfStream
| CancelledByUser.

(** How an f-string renders a member of the enum. *)
Definition str_of_CancellationReason (r : CancellationReason) : string :=
  match r with
  | Error => "CancellationReason.Error"
  | EndOfStream => "CancellationReason.EndOfStream"
  | CancelledByUser => "CancellationReason.CancelledByUser"
  end.

Record CancellationDetails : Type := {
  cd_reason : CancellationReason;
  cd_error_details : string
}.

Record SpeechRecognitionResult : Type := {
  rr_reason : ResultReason;
  rr_text : string;
  rr_cancellation_details : CancellationDetails
}.

Record SpeechSynthesisResult : Type := {
  sr_reason : ResultReason;
  sr_audio_data : bytes;
  sr_cancellation_details : CancellationDetails
}.

(** The object [wave.open(..., 'rb')] returns. *)
Record Wave_read : Type := {
  getframerate : Z;
  getsampwidth : Z;
  getnchannels : Z;
  getnframes : Z;
  readframes : Z -> bytes
}.

(** ** The agent SDK's objects *)

Record MessageTextDetails : Type := { value : string }.
Record MessageTextContent : Type := { text : MessageTextDetails }.

Record ThreadMessage : Type := {
  role : string;
  text_messages : list MessageTextContent
}.

Record AgentThread : Type := { id : string }.

Record ThreadRun : Type := {
  status : string;
  last_error : string
}.

(** What [messages.list] returns: an iterable that fetches as it is
    walked, so that walking it can raise after some items. *)
Inductive ItemPaged (A : Type) : Type :=
| PagedEnd
| PagedItem (a : A) (rest : ItemPaged A)
| PagedRaise (message : string).
Arguments PagedEnd {A}.
Arguments PagedItem {A} a rest.
Arguments PagedRaise {A} message.

Fixpoint paged_of_list {A} (l : list A) : ItemPaged A :=
  match l with
  | [] => PagedEnd
  | a :: l' => PagedItem a (paged_of_list l')
  end.

(** [a ++ rest]: the items of [a], then whatever [rest] does. *)
Fixpoint paged_app {A} (l : list A) (rest : ItemPaged A) : ItemPaged A :=
  match l with
  | [] => rest
  | a :: l' => PagedItem a (paged_app l' rest)
  end.

(** [project_client.agents]: the four operations the stage uses. *)
Record AIProjectClient : Type := {
  threads_create : outcome AgentThread;
  messages_create : string -> string -> string -> outcome unit;
  runs_create_and_process : string -> string -> outcome ThreadRun;
  messages_list : string -> ListSortOrder -> ItemPaged ThreadMessage
}.

(** ** HTTP objects of the endpoint *)

(** [fastapi.UploadFile]: reading it gives the uploaded bytes or
    raises. *)
Record UploadFile : Type := { read : outcome bytes }.

(** [fastapi.Response(content=..., media_type=...)]; the status code
    defaults to 200 and the whole body is held in [content]. *)
Record Response : Type := {
  content : bytes;
  status_code : Z;
  media_type : string
}.

(** The [content-length] header a [Response] is sent with. *)
Definition content_length (r : Response) : Z :=
  Z.of_nat (List.length (content r)).

(** ** The server: [main.py] *)

(** The handles the module creates at import time and the libraries it
    calls: the [wave] reader, the speech engine behind [speech_config]
    (one recognition pass over a pushed stream, one synthesis of a
    text), the agent client ([None] when its construction failed) and
    the configured agent identifier. *)
Record Services : Type := {
  wave_open : bytes -> outcome Wave_read;
  recognize_once : AudioStreamFormat -> bytes -> outcome SpeechRecognitionResult;
  speak_text : string -> outcome SpeechSynthesisResult;
  project_client : option AIProjectClient;
  AGENT_ID : string
}.

(** [l[-1]]: [None] stands for the [IndexError] of an empty list. *)
Definition last_item {A} (l : list A) : option A :=
  List.last (List.map Some l) None.

(** Truth value of a list: [bool(l)]. *)
Definition nonempty {A} (l : list A) : bool :=
  match l with
  | [] => false
  | _ :: _ => true
  end.

(** The [for message in messages] loop of [get_agent_response], with
    [assistant_response] the variable it may overwrite before [break]. *)
Fixpoint scan_messages (messages : ItemPaged ThreadMessage)
    (assistant_response : string) : io string :=
  match messages with
  | PagedEnd => ret assistant_response
  | PagedRaise message => raise (Exception message)
  | PagedItem message rest =>
      if (role message =? "assistant") && nonempty (text_messages message)
      then match last_item (text_messages message) with
           | Some segment => ret (value (text segment))
           | None => raise (Exception "list index out of range")
           end
      else scan_messages rest assistant_response
  end.

(** [audio_response_stream.getvalue()], where the stream may be
    [None]. *)
Definition getvalue (stream : option bytes) : io bytes :=
  match stream with
  | Some audio => ret audio
  | None => raise (Exception "'NoneType' object has no attribute 'getvalue'")
  end.

Section Server.

Variable env : Services.

Definition speech_to_text_from_audio_data (audio_data : bytes) : io string :=
  emit (CallRecognition audio_data) ;;
  wave_file <- lift (wave_open env audio_data) ;;
  let frame_rate := getframerate wave_file in
  let sample_width := getsampwidth wave_file in
  let n_channels := getnchannels wave_file in
  let bits := sample_width * 8 in
  let frames := readframes wave_file (getnframes wave_file) in
  let stream_format :=
    {| samples_per_second := frame_rate;
       bits_per_sample := bits;
       channels := n_channels |} in
  emit (PushStreamWrite stream_format frames) ;;
  emit PushStreamClose ;;
  result <- (emit RecognizeOnce ;; lift (recognize_once env stream_format frames)) ;;
  match rr_reason result with
  | RecognizedSpeech => ret (rr_text result)
  | NoMatch => raise (HTTPException 400 "No speech could be recognized.")
  | Canceled =>
      let cancellation_details := rr_cancellation_details result in
      let error_details := cd_error_details cancellation_details in
      raise (HTTPException 500
               ("Speech Recognition canceled: "
                ++ str_of_CancellationReason (cd_reason cancellation_details)
                ++ ". Error: " ++ error_details))
  | _ => ret ""
  end.

Definition text_to_speech_to_stream (text : string) : io (option bytes) :=
  emit (CallSynthesis text) ;;
  result <- (emit (SpeakText text) ;; lift (speak_text env text)) ;;
  match sr_reason result with
  | SynthesizingAudioCompleted => ret (Some (sr_audio_data result))
  | Canceled =>
      let cancellation_details := sr_cancellation_details result in
      raise (HTTPException 500
               ("Text-to-Speech canceled: "
                ++ str_of_CancellationReason (cd_reason cancellation_details)
                ++ ". Error: " ++ cd_error_details cancellation_details))
  | _ => ret None
  end.

(** The body of the [try] block of [get_agent_response]. *)
Definition agent_turn (client : AIProjectClient) (user_text : string)
    : io string :=
  thread <- (emit ThreadsCreate ;; lift (threads_create client)) ;;
  (emit (MessagesCreate (id thread) "user" user_text) ;;
   lift (messages_create client (id thread) "user" user_text)) ;;
  run <- (emit (RunsCreateAndProcess (id thread) (AGENT_ID env)) ;;
          lift (runs_create_and_process client (id thread) (AGENT_ID env))) ;;
  if status run =? "failed"
  then ret ("The agent encountered an error: " ++ last_error run)
  else
    emit (MessagesList (id thread) DESCENDING) ;;
    scan_messages (messages_list client (id thread) DESCENDING)
      "Sorry, I couldn't get a response.".

Definition get_agent_response (user_text : string) : io string :=
  emit (CallConversation user_text) ;;
  match project_client env with
  | None => ret "Error: AI Project Client is not initialized. Check server logs."
  | Some client =>
      try_except (agent_turn client user_text)
        (fun _ =>
           ret "I'm sorry, but I encountered an error while trying to process your request.")
  end.

(** The body of the [try] block of [chat_endpoint]. *)
Definition chat_pipeline (file : UploadFile) : io Response :=
  audio_data <- (emit UploadRead ;; lift (read file)) ;;
  user_text <- speech_to_text_from_audio_data audio_data ;;
  if user_text =? ""
  then raise (HTTPException 400 "Could not understand the audio.")
  else
    agent_response_text <- get_agent_response user_text ;;
    audio_response_stream <- text_to_speech_to_stream agent_response_text ;;
    audio_bytes <- getvalue audio_response_stream ;;
    ret {| content := audio_bytes; status_code := 200; media_type := "audio/wav" |}.

(** Its two [except] clauses: [except HTTPException as e: raise e],
    then [except Exception as e]. *)
Definition chat_except (e : exn) : io Response :=
  match e with
  | HTTPException _ _ => raise e
  | Exception message =>
      raise (HTTPException 500
               ("An internal server error occurred. Details: " ++ message))
  end.

Definition chat_endpoint (file : UploadFile) : io Response :=
  try_except (chat_pipeline file) chat_except.

End Server.

(** ** The client: [app.py] *)

Module App.

(** One entry of [st.session_state.messages]: the dict
    [{"role": ..., "audio": ...}]. *)
Record ChatMessage : Type := {
  role : string;
  audio : bytes
}.

(** [st.session_state] once its three keys exist. *)
Record session_state : Type := {
  messages : list ChatMessage;
  last_audio : option bytes;
  audio_to_play : option bytes
}.

(** The part of a [requests.Response] the script reads. *)
Record HTTPResponse : Type := {
  status_code : Z;
  content : bytes;
  text : string
}.

(** What one run of the script does on the page and on the network.
    [StAudio] carries the chat container it is drawn in, if any. *)
Inductive ui_event : Type :=
| StAudio (chat_message : option string) (data : bytes) (autoplay : bool)
| RequestsPost (url : string) (payload : bytes) (timeout : Z)
| StError (message : string).

Definition BACKEND_URL : string := "http://127.0.0.1:8000/api/chat".

(** Session State Initialization.  The three keys are created by the
    same run, so a session holds either none of them ([None]) or all
    three. *)
Definition initialize (stored : option session_state) : session_state :=
  match stored with
  | None => {| messages := []; last_audio := None; audio_to_play := None |}
  | Some st => st
  end.

(** Display Chat History. *)
Definition display_history (st : session_state) : list ui_event :=
  List.map (fun message => StAudio (Some (role message)) (audio message) false)
    (messages st).

(** Autoplay Handler: [if st.session_state.audio_to_play:] is false for
    [None] and for empty bytes. *)
Definition autoplay_handler (st : session_state)
    : list ui_event * session_state :=
  match audio_to_play st with
  | Some clip =>
      if nonempty clip
      then ([StAudio None clip true],
            {| messages := messages st;
               last_audio := last_audio st;
               audio_to_play := None |})
      else ([], st)
  | None => ([], st)
  end.

(** [wav_audio_data != st.session_state.last_audio], for a
    [wav_audio_data] that is not [None]. *)
Definition differs (wav_audio_data : bytes) (last : option bytes) : bool :=
  match last with
  | None => true
  | Some previous => negb (bytes_eqb wav_audio_data previous)
  end.

(** Main Logic.  [post] is what [requests.post] does with the payload
    during this run. *)
Definition main_logic (post : bytes -> outcome HTTPResponse)
    (wav_audio_data : option bytes) (st : session_state)
    : list ui_event * session_state :=
  match wav_audio_data with
  | None => ([], st)
  | Some data =>
      if differs data (last_audio st)
      then
        let user_message := {| role := "user"; audio := data |} in
        let log := (messages st ++ [user_message])%list in
        let shown := StAudio (Some "user") data false in
        let sent := RequestsPost BACKEND_URL data 60 in
        match post data with
        | inr response =>
            if (status_code response =? 200)%Z
            then
              let assistant_audio_bytes := content response in
              ([shown; sent; StAudio (Some "assistant") assistant_audio_bytes false],
               {| messages :=
                    (log ++ [{| role := "assistant";
                                audio := assistant_audio_bytes |}])%list;
                  last_audio := Some data;
                  audio_to_play := Some assistant_audio_bytes |})
            else
              ([shown; sent;
                StError ("Error from server: " ++ str_of_int (status_code response)
                         ++ " - " ++ text response)],
               {| messages := log;
                  last_audio := Some data;
                  audio_to_play := audio_to_play st |})
        | inl e =>
            ([shown; sent; StError ("An unexpected error occurred: " ++ e)],
             {| messages := log;
                last_audio := Some data;
                audio_to_play := audio_to_play st |})
        end
      else ([], st)
  end.

(** One run of the script, top to bottom: [wav_audio_data] is what
    [st_audiorec()] returns in this run. *)
Definition script (post : bytes -> outcome HTTPResponse)
    (wav_audio_data : option bytes) (stored : option session_state)
    : list ui_event * session_state :=
  let st := initialize stored in
  let history := display_history st in
  let '(played, st) := autoplay_handler st in
  let '(acted, st) := main_logic post wav_audio_data st in
  ((history ++ played ++ acted)%list, st).

(** The payloads posted to the backend among some events. *)
Fixpoint posts (events : list ui_event) : list bytes :=
  match events with
  | [] => []
  | RequestsPost _ payload _ :: rest => payload :: posts rest
  | _ :: rest => posts rest
  end.

(** Successive runs of the script in one browser session, each with
    what the recorder returns and what the network does in that run. *)
Fixpoint reruns (inputs : list (option bytes * (bytes -> outcome HTTPResponse)))
    (stored : option session_state) : list ui_event * option session_state :=
  match inputs with
  | [] => ([], stored)
  | (wav_audio_data, post) :: later =>
      let '(events, st) := script post wav_audio_data stored in
      let '(events', final) := reruns later (Some st) in
      ((events ++ events')%list, final)
  end.

(** No payload occurs twice in a row. *)
Fixpoint no_repeat (payloads : list bytes) : Prop :=
  match payloads with
  | [] => True
  | a :: rest =>
      match rest with
      | [] => True
      | b :: _ => a <> b
      end /\ no_repeat rest
  end.

(** The clips a run plays by itself, in order. *)
Fixpoint autoplays (events : list ui_event) : list bytes :=
  match events with
  | [] => []
  | StAudio _ data true :: rest => data :: autoplays rest
  | _ :: rest => autoplays rest
  end.

(** The messages a run shows with [st.error], in order. *)
Fixpoint errors (events : list ui_event) : list string :=
  match events with
  | [] => []
  | StError message :: rest => message :: errors rest
  | _ :: rest => errors rest
  end.

(** The clips logged under one role, oldest first. *)
Definition clips_of (who : string) (log : list ChatMessage) : list bytes :=
  List.map audio (List.filter (fun message => role message =? who) log).

End App.

(** ** Vocabulary of the statements *)

(** The format the header of a clip announces: sample rate, bit depth
    (sample width in bytes times 8), channel count. *)
Definition stream_format_of (w : Wave_read) : AudioStreamFormat :=
  {| samples_per_second := getframerate w;
     bits_per_sample := getsampwidth w * 8;
     channels := getnchannels w |}.

(** The PCM frames of a clip, without its header. *)
Definition frames_of (w : Wave_read) : bytes :=
  readframes w (getnframes w).

(** What the engine reports for an upload, when the upload parses and
    the engine answers at all. *)
Definition engine_report (env : Services) (audio_data : bytes)
    : option SpeechRecognitionResult :=
  match wave_open env audio_data with
  | inl _ => None
  | inr w =>
      match recognize_once env (stream_format_of w) (frames_of w) with
      | inl _ => None
      | inr result => Some result
      end
  end.

(** Events of the conversation and synthesis stages. *)
Definition is_downstream (ev : event) : bool :=
  match ev with
  | CallConversation _ | ThreadsCreate | MessagesCreate _ _ _
  | RunsCreateAndProcess _ _ | MessagesList _ _
  | CallSynthesis _ | SpeakText _ => true
  | _ => false
  end.

(** Calls that reach the agent backend. *)
Definition is_agent_call (ev : event) : bool :=
  match ev with
  | ThreadsCreate | MessagesCreate _ _ _
  | RunsCreateAndProcess _ _ | MessagesList _ _ => true
  | _ => false
  end.

(** The test of the reply loop: an assistant-authored message with at
    least one text segment. *)
Definition selectable (message : ThreadMessage) : bool :=
  (role message =? "assistant") && nonempty (text_messages message).

(** The conversation with the backend went through up to the listing:
    thread provisioned, user message posted, run finished in a state
    other than failure, and the thread listed newest first is
    [listing]. *)
Definition listed (env : Services) (user_text : string)
    (listing : ItemPaged ThreadMessage) : Prop :=
  exists client thread run,
    project_client env = Some client /\
    threads_create client = inr thread /\
    messages_create client (id thread) "user" user_text = inr tt /\
    runs_create_and_process client (id thread) (AGENT_ID env) = inr run /\
    status run <> "failed" /\
    messages_list client (id thread) DESCENDING = listing.

(** Reply selection as the specification words it: the first
    assistant-authored message of the newest-first listing. *)
Definition first_assistant (listing : list ThreadMessage) : option ThreadMessage :=
  List.find (fun message => role message =? "assistant") listing.

(** An agent backend with one thread whose messages are, oldest first,
    [log] once the run has ended as [run]; it lists them in the order
    asked for. *)
Definition backend_with_thread (thread : string) (run : ThreadRun)
    (log : list ThreadMessage) : AIProjectClient :=
  {| threads_create := inr {| id := thread |};
     messages_create := fun _ _ _ => inr tt;
     runs_create_and_process := fun _ _ => inr run;
     messages_list := fun _ order =>
       paged_of_list match order with
                     | ASCENDING => log
                     | DESCENDING => List.rev log
                     end |}.

(** ** The server's start-up: the module-level code of [main.py] *)

(** [speechsdk.SpeechSynthesisOutputFormat], some of its members. *)
Inductive SpeechSynthesisOutputFormat : Type :=
| Riff8Khz16BitMonoPcm
| Riff16Khz16BitMonoPcm
| Riff24Khz16BitMonoPcm
| Riff48Khz16BitMonoPcm.

(** [speechsdk.SpeechConfig]: what it was constructed from, and the
    synthesis output format once one is set. *)
Record SpeechConfig : Type := {
  endpoint : option string;
  subscription : string;
  region : option string;
  speech_synthesis_output_format : option SpeechSynthesisOutputFormat
}.

Definition set_speech_synthesis_output_format (config : SpeechConfig)
    (format : SpeechSynthesisOutputFormat) : SpeechConfig :=
  {| endpoint := endpoint config;
     subscription := subscription config;
     region := region config;
     speech_synthesis_output_format := Some format |}.

(** The value of [os.environ.get(name)] when it counts as true: [not v]
    holds for [None] and for the empty string. *)
Definition present (v : option string) : option string :=
  match v with
  | Some s => if s =? "" then None else Some s
  | None => None
  end.

(** The module globals the request handlers use. *)
Record Globals : Type := {
  speech_config : SpeechConfig;
  g_AGENT_ID : string;
  g_project_client : option AIProjectClient
}.

(** Importing [main.py]: [environ] is [os.environ.get] after
    [load_dotenv()], and [connect] is the construction of an
    [AIProjectClient] for an endpoint, which may raise.  The result is
    the module's globals, or the [RuntimeError] that aborts the
    import. *)
Definition startup (environ : string -> option string)
    (connect : string -> outcome AIProjectClient) : result Globals :=
  let SPEECH_KEY := environ "SPEECH_KEY" in
  let SPEECH_REGION := environ "SPEECH_REGION" in
  let SPEECH_ENDPOINT := environ "SPEECH_ENDPOINT" in
  match present SPEECH_KEY, present SPEECH_REGION with
  | Some key, Some speech_region =>
      let config :=
        match present SPEECH_ENDPOINT with
        | Some speech_endpoint =>
            {| endpoint := Some speech_endpoint;
               subscription := key;
               region := None;
               speech_synthesis_output_format := None |}
        | None =>
            {| endpoint := None;
               subscription := key;
               region := Some speech_region;
               speech_synthesis_output_format := None |}
        end in
      let config := set_speech_synthesis_output_format config Riff24Khz16BitMonoPcm in
      let AI_PROJECT_ENDPOINT := environ "AI_PROJECT_ENDPOINT" in
      let AGENT := environ "AGENT_ID" in
      match present AI_PROJECT_ENDPOINT, present AGENT with
      | Some project_endpoint, Some agent =>
          let client :=
            match connect project_endpoint with
            | inr c => Some c
            | inl _ => None
            end in
          Return {| speech_config := config;
                    g_AGENT_ID := agent;
                    g_project_client := client |}
      | _, _ =>
          Raise (Exception
                   "AI_PROJECT_ENDPOINT and AGENT_ID environment variables are required.")
      end
  | _, _ =>
      Raise (Exception "SPEECH_KEY and SPEECH_REGION environment variables are required.")
  end.

(** The services a started module runs its requests with: the speech
    engine is reached through the module's [speech_config]. *)
Definition services_of (globals : Globals)
    (reader : bytes -> outcome Wave_read)
    (recognizer : SpeechConfig -> AudioStreamFormat -> bytes
                  -> outcome SpeechRecognitionResult)
    (synthesizer : SpeechConfig -> string -> outcome SpeechSynthesisResult)
    : Services :=
  {| wave_open := reader;
     recognize_once := recognizer (speech_config globals);
     speak_text := synthesizer (speech_config globals);
     project_client := g_project_client globals;
     AGENT_ID := g_AGENT_ID globals |}.


(** ** Worked inputs *)

Module Examples.

(** Little-endian unsigned integer. *)
Fixpoint le_int (b : bytes) : Z :=
  match b with
  | [] => 0
  | x :: rest => Z.of_N (Byte.to_N x) + 256 * le_int rest
  end.

Definition slice (b : bytes) (start len : nat) : bytes :=
  List.firstn len (List.skipn start b).

Definition tagged (b : bytes) (start : nat) (tag : string) : bool :=
  bytes_eqb (slice b start 4) (list_byte_of_string tag).

(** A reader for clips with the canonical 44-byte PCM header, standing
    in for [wave.open] on the clips below: chunk tags, format fields
    and data size are read from the header, little-endian. *)
Definition canonical_wave_open (audio_data : bytes) : outcome Wave_read :=
  if tagged audio_data 0 "RIFF" && tagged audio_data 8 "WAVE"
     && tagged audio_data 12 "fmt " && tagged audio_data 36 "data"
     && (le_int (slice audio_data 20 2) =? 1)%Z
  then
    let nchannels := le_int (slice audio_data 22 2) in
    let framerate := le_int (slice audio_data 24 4) in
    let sampwidth := (le_int (slice audio_data 34 2) + 7) / 8 in
    let framesize := nchannels * sampwidth in
    let data := List.firstn (Z.to_nat (le_int (slice audio_data 40 4)))
                  (List.skipn 44 audio_data) in
    if (0 <? framesize)%Z
    then inr {| getframerate := framerate;
                getsampwidth := sampwidth;
                getnchannels := nchannels;
                getnframes := Z.of_nat (List.length data) / framesize;
                readframes := fun n => List.firstn (Z.to_nat (n * framesize)) data |}
    else inl "bad sample width or channel count"
  else inl "file does not start with RIFF id".

(** Two samples of 16 kHz, 16 bit, mono. *)
Definition clip_16k_mono : bytes :=
  (list_byte_of_string "RIFF" ++ [x28; x00; x00; x00]
   ++ list_byte_of_string "WAVEfmt "
   ++ [x10; x00; x00; x00; x01; x00; x01; x00; x80; x3e; x00; x00;
       x00; x7d; x00; x00; x02; x00; x10; x00]
   ++ list_byte_of_string "data" ++ [x04; x00; x00; x00]
   ++ [x01; x00; xff; x7f])%list.

(** Two frames of 8 kHz, 8 bit, stereo. *)
Definition clip_8k_stereo : bytes :=
  (list_byte_of_string "RIFF" ++ [x28; x00; x00; x00]
   ++ list_byte_of_string "WAVEfmt "
   ++ [x10; x00; x00; x00; x01; x00; x02; x00; x40; x1f; x00; x00;
       x80; x3e; x00; x00; x02; x00; x08; x00]
   ++ list_byte_of_string "data" ++ [x04; x00; x00; x00]
   ++ [x80; x80; x7f; x81])%list.

Definition not_a_clip : bytes := list_byte_of_string "hello".

Definition upload (audio_data : bytes) : UploadFile :=
  {| read := inr audio_data |}.

Definition no_details : CancellationDetails :=
  {| cd_reason := Error; cd_error_details := "" |}.

Definition heard (transcript : string) : SpeechRecognitionResult :=
  {| rr_reason := RecognizedSpeech;
     rr_text := transcript;
     rr_cancellation_details := no_details |}.

Definition reported (reason : ResultReason) : SpeechRecognitionResult :=
  {| rr_reason := reason;
     rr_text := "";
     rr_cancellation_details :=
       {| cd_reason := Error;
          cd_error_details := "Connection was closed by the remote host." |} |}.

Definition reply_audio : bytes := [x52; x49; x46; x46; x00; x01].

Definition synthesis (reason : ResultReason) : SpeechSynthesisResult :=
  {| sr_reason := reason;
     sr_audio_data := reply_audio;
     sr_cancellation_details :=
       {| cd_reason := Error; cd_error_details := "Quota exceeded." |} |}.

Definition services (recognition : outcome SpeechRecognitionResult)
    (spoken : outcome SpeechSynthesisResult)
    (client : option AIProjectClient) : Services :=
  {| wave_open := canonical_wave_open;
     recognize_once := fun _ _ => recognition;
     speak_text := fun _ => spoken;
     project_client := client;
     AGENT_ID := "asst_demo" |}.

Definition segment (v : string) : MessageTextContent :=
  {| text := {| value := v |} |}.

Definition assistant (segments : list string) : ThreadMessage :=
  {| role := "assistant"; text_messages := List.map segment segments |}.

Definition user (segments : list string) : ThreadMessage :=
  {| role := "user"; text_messages := List.map segment segments |}.

Definition completed : ThreadRun :=
  {| status := "completed"; last_error := "None" |}.

Definition failed : ThreadRun :=
  {| status := "failed"; last_error := "rate_limit_exceeded" |}.

(** A backend that cannot be reached. *)
Definition unreachable : AIProjectClient :=
  {| threads_create := inl "Connection refused";
     messages_create := fun _ _ _ => inl "Connection refused";
     runs_create_and_process := fun _ _ => inl "Connection refused";
     messages_list := fun _ _ => PagedRaise "Connection refused" |}.

(** A thread in which the newest assistant message carries no text. *)
Definition thread_with_textless_reply : list ThreadMessage :=
  [user ["hi"]; assistant ["older answer"]; assistant []].

Definition thread_abc : list ThreadMessage :=
  [user ["hi"]; assistant ["A"]; assistant ["B"]; assistant ["C1"; "C2"]].

(** A server for the client: it answers every post the same way. *)
Definition answers (code : Z) (body : bytes) (shown : string)
    : bytes -> outcome App.HTTPResponse :=
  fun _ => inr {| App.status_code := code; App.content := body; App.text := shown |}.

(** An environment with every variable set, the speech endpoint
    aside. *)
Definition environ (name : string) : option string :=
  if name =? "SPEECH_KEY" then Some "key-1"
  else if name =? "SPEECH_REGION" then Some "westeurope"
  else if name =? "AI_PROJECT_ENDPOINT" then Some "https://project.example"
  else if name =? "AGENT_ID" then Some "asst_demo"
  else None.

(** The same with the speech region left empty. *)
Definition environ_without_region (name : string) : option string :=
  if name =? "SPEECH_REGION" then Some "" else environ name.

(** The same with a speech endpoint. *)
Definition environ_with_endpoint (name : string) : option string :=
  if name =? "SPEECH_ENDPOINT" then Some "https://speech.example"
  else environ name.

Definition no_credentials (project_endpoint : string) : outcome AIProjectClient :=
  inl "DefaultAzureCredential failed to retrieve a token".

End Examples.

(** * Properties *)

(** ** Strings *)

Lemma append_nil_r (s : string) : s ++ "" = s.
Proof. induction s as [|c s IH]; simpl; [reflexivity | now rewrite IH]. Qed.

Lemma append_assoc (a b c : string) : (a ++ b) ++ c = a ++ (b ++ c).
Proof. induction a as [|x a IH]; simpl; [reflexivity | now rewrite IH]. Qed.

Lemma contains_suffix (pre s : string) : contains s (pre ++ s).
Proof. exists pre, "". now rewrite append_nil_r. Qed.

Lemma contains_middle (pre s post : string) : contains s (pre ++ s ++ post).
Proof. now exists pre, post. Qed.

(** ** Sequencing *)

Lemma bind_return {A B} (m : io A) (f : A -> io B) (a : A) :
  outcome_of m = Return a ->
  bind m f = ((trace m ++ trace (f a))%list, outcome_of (f a)).
Proof.
  destruct m as [t [x|e]]; simpl; intros H; [|discriminate].
  injection H as ->. now destruct (f a).
Qed.

Lemma bind_raise {A B} (m : io A) (f : A -> io B) (e : exn) :
  outcome_of m = Raise e -> bind m f = (trace m, Raise e).
Proof.
  destruct m as [t [x|e']]; simpl; intros H; [discriminate|].
  now injection H as ->.
Qed.

Lemma try_except_return {A} (m : io A) (h : exn -> io A) (a : A) :
  outcome_of m = Return a -> try_except m h = m.
Proof.
  destruct m as [t [x|e]]; simpl; intros H; [reflexivity | discriminate].
Qed.

Lemma try_except_raise {A} (m : io A) (h : exn -> io A) (e : exn) :
  outcome_of m = Raise e ->
  try_except m h = ((trace m ++ trace (h e))%list, outcome_of (h e)).
Proof.
  destruct m as [t [x|e']]; simpl; intros H; [discriminate|].
  injection H as ->. now destruct (h e).
Qed.

Lemma io_eta {A} (m : io A) : m = (trace m, outcome_of m).
Proof. now destruct m. Qed.

(** ** Recognition stage *)

(** The stage stops at the reader when the upload is no clip. *)
Lemma recognition_on_bad_clip env audio_data message :
  wave_open env audio_data = inl message ->
  speech_to_text_from_audio_data env audio_data
  = ([CallRecognition audio_data], Raise (Exception message)).
Proof.
  intros H. unfold speech_to_text_from_audio_data. now rewrite H.
Qed.

(** The stage on a clip the engine fails on. *)
Lemma recognition_on_engine_failure env audio_data w message :
  wave_open env audio_data = inr w ->
  recognize_once env (stream_format_of w) (frames_of w) = inl message ->
  speech_to_text_from_audio_data env audio_data
  = ([CallRecognition audio_data;
      PushStreamWrite (stream_format_of w) (frames_of w);
      PushStreamClose; RecognizeOnce],
     Raise (Exception message)).
Proof.
  intros Hw Hr. unfold speech_to_text_from_audio_data. rewrite Hw. simpl.
  unfold stream_format_of, frames_of in Hr. now rewrite Hr.
Qed.

(** The stage on a clip the engine answers on. *)
Lemma recognition_on_report env audio_data w result :
  wave_open env audio_data = inr w ->
  recognize_once env (stream_format_of w) (frames_of w) = inr result ->
  speech_to_text_from_audio_data env audio_data
  = ([CallRecognition audio_data;
      PushStreamWrite (stream_format_of w) (frames_of w);
      PushStreamClose; RecognizeOnce],
     match rr_reason result with
     | RecognizedSpeech => Return (rr_text result)
     | NoMatch => Raise (HTTPException 400 "No speech could be recognized.")
     | Canceled =>
         Raise (HTTPException 500
                  ("Speech Recognition canceled: "
                   ++ str_of_CancellationReason
                        (cd_reason (rr_cancellation_details result))
                   ++ ". Error: "
                   ++ cd_error_details (rr_cancellation_details result)))
     | _ => Return ""
     end).
Proof.
  intros Hw Hr. unfold speech_to_text_from_audio_data. rewrite Hw. simpl.
  unfold stream_format_of, frames_of in Hr. rewrite Hr. simpl.
  now destruct (rr_reason result).
Qed.

(** C2.  For an upload that parses as a clip, the recognition stage
    pushes to the recognizer exactly the frames of the clip, tagged
    with the sample rate, the sample width times 8 and the channel
    count read from its header, closes the stream and runs one
    recognition pass; the transcript is the engine's answer on that
    stream. *)
Theorem recognition_reads_header env audio_data w :
  wave_open env audio_data = inr w ->
  trace (speech_to_text_from_audio_data env audio_data)
  = [CallRecognition audio_data;
     PushStreamWrite
       {| samples_per_second := getframerate w;
          bits_per_sample := getsampwidth w * 8;
          channels := getnchannels w |}
       (readframes w (getnframes w));
     PushStreamClose; RecognizeOnce]
  /\ forall result,
       recognize_once env
         {| samples_per_second := getframerate w;
            bits_per_sample := getsampwidth w * 8;
            channels := getnchannels w |}
         (readframes w (getnframes w)) = inr result ->
       rr_reason result = RecognizedSpeech ->
       outcome_of (speech_to_text_from_audio_data env audio_data)
       = Return (rr_text result).
Proof.
  intros Hw. split.
  - destruct (recognize_once env (stream_format_of w) (frames_of w)) as [m|r] eqn:Hr.
    + now rewrite (recognition_on_engine_failure _ _ _ _ Hw Hr).
    + now rewrite (recognition_on_report _ _ _ _ Hw Hr).
  - intros result Hr Hreason.
    rewrite (recognition_on_report _ _ _ _ Hw Hr). simpl. now rewrite Hreason.
Qed.

(** On the 16 kHz mono clip the recognizer gets its four data bytes as
    16000 Hz, 16 bit, one channel; on the 8 kHz stereo clip it gets
    8000 Hz, 8 bit, two channels. *)
Lemma recognition_reads_header_witness :
  trace (speech_to_text_from_audio_data
           (Examples.services (inr (Examples.heard "hello")) (inl "") None)
           Examples.clip_16k_mono)
  = [CallRecognition Examples.clip_16k_mono;
     PushStreamWrite
       {| samples_per_second := 16000; bits_per_sample := 16; channels := 1 |}
       [x01; x00; xff; x7f];
     PushStreamClose; RecognizeOnce]
  /\ trace (speech_to_text_from_audio_data
              (Examples.services (inr (Examples.heard "hello")) (inl "") None)
              Examples.clip_8k_stereo)
     = [CallRecognition Examples.clip_8k_stereo;
        PushStreamWrite
          {| samples_per_second := 8000; bits_per_sample := 8; channels := 2 |}
          [x80; x80; x7f; x81];
        PushStreamClose; RecognizeOnce].
Proof.
  split.
  - exact (proj1 (recognition_reads_header
                    (Examples.services (inr (Examples.heard "hello")) (inl "") None)
                    Examples.clip_16k_mono _ eq_refl)).
  - exact (proj1 (recognition_reads_header
                    (Examples.services (inr (Examples.heard "hello")) (inl "") None)
                    Examples.clip_8k_stereo _ eq_refl)).
Defined.

(** The stage raises an HTTP error only on an engine report: the
    status and detail it raises, by what the engine reported. *)
Lemma recognition_http_error env audio_data code detail :
  outcome_of (speech_to_text_from_audio_data env audio_data)
  = Raise (HTTPException code detail) ->
  exists result,
    engine_report env audio_data = Some result /\
    ((rr_reason result = NoMatch /\ code = 400 /\
      detail = "No speech could be recognized.") \/
     (rr_reason result = Canceled /\ code = 500 /\
      detail = "Speech Recognition canceled: "
               ++ str_of_CancellationReason
                    (cd_reason (rr_cancellation_details result))
               ++ ". Error: "
               ++ cd_error_details (rr_cancellation_details result))).
Proof.
  unfold engine_report.
  destruct (wave_open env audio_data) as [m|w] eqn:Hw.
  - rewrite (recognition_on_bad_clip _ _ _ Hw). discriminate.
  - destruct (recognize_once env (stream_format_of w) (frames_of w))
      as [m|result] eqn:Hr.
    + rewrite (recognition_on_engine_failure _ _ _ _ Hw Hr). discriminate.
    + rewrite (recognition_on_report _ _ _ _ Hw Hr). simpl.
      intros H. exists result. split; [reflexivity|].
      destruct (rr_reason result); try discriminate;
        injection H as <- <-; auto.
Qed.

Lemma recognition_of_report env audio_data result :
  engine_report env audio_data = Some result ->
  outcome_of (speech_to_text_from_audio_data env audio_data)
  = match rr_reason result with
    | RecognizedSpeech => Return (rr_text result)
    | NoMatch => Raise (HTTPException 400 "No speech could be recognized.")
    | Canceled =>
        Raise (HTTPException 500
                 ("Speech Recognition canceled: "
                  ++ str_of_CancellationReason
                       (cd_reason (rr_cancellation_details result))
                  ++ ". Error: "
                  ++ cd_error_details (rr_cancellation_details result)))
    | _ => Return ""
    end.
Proof.
  unfold engine_report.
  destruct (wave_open env audio_data) as [m|w] eqn:Hw; [discriminate|].
  destruct (recognize_once env (stream_format_of w) (frames_of w))
    as [m|r] eqn:Hr; [discriminate|].
  intros H. injection H as ->.
  now rewrite (recognition_on_report _ _ _ _ Hw Hr).
Qed.

(** ** The endpoint, stage by stage *)

Lemma pipeline_on_unreadable_upload env file message :
  read file = inl message ->
  chat_pipeline env file = ([UploadRead], Raise (Exception message)).
Proof. intros H. unfold chat_pipeline. now rewrite H. Qed.

Lemma pipeline_on_recognition_error env file audio_data e :
  read file = inr audio_data ->
  outcome_of (speech_to_text_from_audio_data env audio_data) = Raise e ->
  chat_pipeline env file
  = (UploadRead :: trace (speech_to_text_from_audio_data env audio_data),
     Raise e).
Proof.
  intros Hf He. unfold chat_pipeline. rewrite Hf. simpl.
  now rewrite (bind_raise _ _ _ He).
Qed.

Lemma pipeline_on_empty_transcript env file audio_data :
  read file = inr audio_data ->
  outcome_of (speech_to_text_from_audio_data env audio_data) = Return "" ->
  chat_pipeline env file
  = (UploadRead :: trace (speech_to_text_from_audio_data env audio_data),
     Raise (HTTPException 400 "Could not understand the audio.")).
Proof.
  intros Hf He. unfold chat_pipeline. rewrite Hf. simpl.
  rewrite (bind_return _ _ _ He). simpl. now rewrite List.app_nil_r.
Qed.

Lemma endpoint_on_http_error env file code detail :
  outcome_of (chat_pipeline env file) = Raise (HTTPException code detail) ->
  chat_endpoint env file
  = (trace (chat_pipeline env file), Raise (HTTPException code detail)).
Proof.
  intros H. unfold chat_endpoint. rewrite (try_except_raise _ _ _ H).
  simpl. now rewrite List.app_nil_r.
Qed.

Lemma endpoint_on_exception env file message :
  outcome_of (chat_pipeline env file) = Raise (Exception message) ->
  chat_endpoint env file
  = (trace (chat_pipeline env file),
     Raise (HTTPException 500
              ("An internal server error occurred. Details: " ++ message))).
Proof.
  intros H. unfold chat_endpoint. rewrite (try_except_raise _ _ _ H).
  simpl. now rewrite List.app_nil_r.
Qed.

Lemma endpoint_on_return env file r :
  outcome_of (chat_pipeline env file) = Return r ->
  chat_endpoint env file = chat_pipeline env file.
Proof. intros H. unfold chat_endpoint. now apply try_except_return with r. Qed.

(** C3, as the specification has it, fails: a clip in which the engine
    finds no speech is answered with status 400 and the detail of the
    recognition stage, not with the endpoint's
    ["Could not understand the audio."]. *)
Lemma no_speech_detail_counterexample :
  engine_report
    (Examples.services (inr (Examples.reported NoMatch)) (inl "") None)
    Examples.clip_16k_mono
  = Some (Examples.reported NoMatch)
  /\ outcome_of
       (chat_endpoint
          (Examples.services (inr (Examples.reported NoMatch)) (inl "") None)
          (Examples.upload Examples.clip_16k_mono))
     = Raise (HTTPException 400 "No speech could be recognized.")
  /\ outcome_of
       (chat_endpoint
          (Examples.services (inr (Examples.reported NoMatch)) (inl "") None)
          (Examples.upload Examples.clip_16k_mono))
     <> Raise (HTTPException 400 "Could not understand the audio.").
Proof.
  split; [reflexivity|]. split; [reflexivity|]. vm_compute. discriminate.
Qed.

(** C3, amended.  The recognition stage raises an HTTP 400 exactly when
    the engine reports no match, and then with the detail
    ["No speech could be recognized."]; it raises an HTTP 500 exactly
    when the engine reports a cancellation, and then its detail
    contains the cancellation reason and the engine's error details.
    Through the endpoint a no-match report is answered with that 400
    and that detail; ["Could not understand the audio."] is the detail
    of the 400 that answers an empty transcript. *)
Theorem recognition_failures env audio_data :
  ((exists detail,
       outcome_of (speech_to_text_from_audio_data env audio_data)
       = Raise (HTTPException 400 detail))
   <-> (exists result,
          engine_report env audio_data = Some result /\
          rr_reason result = NoMatch))
  /\ (forall detail,
        outcome_of (speech_to_text_from_audio_data env audio_data)
        = Raise (HTTPException 400 detail) ->
        detail = "No speech could be recognized.")
  /\ ((exists detail,
          outcome_of (speech_to_text_from_audio_data env audio_data)
          = Raise (HTTPException 500 detail))
      <-> (exists result,
             engine_report env audio_data = Some result /\
             rr_reason result = Canceled))
  /\ (forall detail result,
        outcome_of (speech_to_text_from_audio_data env audio_data)
        = Raise (HTTPException 500 detail) ->
        engine_report env audio_data = Some result ->
        contains (str_of_CancellationReason
                    (cd_reason (rr_cancellation_details result))) detail
        /\ contains (cd_error_details (rr_cancellation_details result)) detail)
  /\ (forall file result,
        read file = inr audio_data ->
        engine_report env audio_data = Some result ->
        rr_reason result = NoMatch ->
        outcome_of (chat_endpoint env file)
        = Raise (HTTPException 400 "No speech could be recognized."))
  /\ (forall file,
        read file = inr audio_data ->
        outcome_of (speech_to_text_from_audio_data env audio_data) = Return "" ->
        outcome_of (chat_endpoint env file)
        = Raise (HTTPException 400 "Could not understand the audio.")).
Proof.
  repeat split.
  - intros [detail H]. destruct (recognition_http_error _ _ _ _ H)
      as [result [Hrep [[Hr _]|[_ [Hc _]]]]]; [eauto | discriminate].
  - intros [result [Hrep Hr]]. rewrite (recognition_of_report _ _ _ Hrep), Hr.
    eauto.
  - intros detail H. destruct (recognition_http_error _ _ _ _ H)
      as [result [Hrep [[_ [_ Hd]]|[_ [Hc _]]]]]; [exact Hd | discriminate].
  - intros [detail H]. destruct (recognition_http_error _ _ _ _ H)
      as [result [Hrep [[_ [Hc _]]|[Hr _]]]]; [discriminate | eauto].
  - intros [result [Hrep Hr]]. rewrite (recognition_of_report _ _ _ Hrep), Hr.
    eauto.
  - destruct (recognition_http_error _ _ _ _ H)
      as [r [Hrep [[_ [Hc _]]|[_ [_ Hd]]]]]; [discriminate|].
    rewrite Hrep in H0. injection H0 as <-. rewrite Hd.
    apply contains_middle.
  - destruct (recognition_http_error _ _ _ _ H)
      as [r [Hrep [[_ [Hc _]]|[_ [_ Hd]]]]]; [discriminate|].
    rewrite Hrep in H0. injection H0 as <-. rewrite Hd.
    rewrite <- !append_assoc. apply contains_suffix.
  - intros file result Hf Hrep Hr.
    pose proof (recognition_of_report _ _ _ Hrep) as Ho. rewrite Hr in Ho.
    pose proof (pipeline_on_recognition_error _ _ _ _ Hf Ho) as Hp.
    rewrite (endpoint_on_http_error env file 400 "No speech could be recognized.");
      [reflexivity | now rewrite Hp].
  - intros file Hf Ho.
    pose proof (pipeline_on_empty_transcript _ _ _ Hf Ho) as Hp.
    rewrite (endpoint_on_http_error env file 400 "Could not understand the audio.");
      [reflexivity | now rewrite Hp].
Qed.

(** ** Conversation stage *)

Lemma last_item_cons {A} (a : A) (l : list A) :
  exists x, last_item (a :: l) = Some x.
Proof.
  unfold last_item. revert a. induction l as [|b l IH]; intros a.
  - now exists a.
  - destruct (IH b) as [x Hx]. exists x. exact Hx.
Qed.

Lemma selectable_last_item message :
  selectable message = true ->
  exists segment, last_item (text_messages message) = Some segment.
Proof.
  unfold selectable. intros H. apply andb_prop in H as [_ H].
  destruct (text_messages message) as [|a l]; [discriminate|].
  apply last_item_cons.
Qed.

(** The loop performs no call of its own. *)
Lemma scan_messages_trace listing fallback :
  trace (scan_messages listing fallback) = [].
Proof.
  induction listing as [|message rest IH|m]; simpl; try reflexivity.
  destruct (_ && _); [|exact IH].
  now destruct (last_item _).
Qed.

(** The loop passes over every message that fails its test. *)
Lemma scan_messages_skip skipped rest fallback :
  List.Forall (fun message => selectable message = false) skipped ->
  scan_messages (paged_app skipped rest) fallback = scan_messages rest fallback.
Proof.
  induction 1 as [|message skipped Hm _ IH]; simpl; [reflexivity|].
  unfold selectable in Hm. now rewrite Hm.
Qed.

(** The loop stops at the first message that passes its test. *)
Lemma scan_messages_select message rest fallback segment :
  selectable message = true ->
  last_item (text_messages message) = Some segment ->
  scan_messages (PagedItem message rest) fallback = ret (value (text segment)).
Proof.
  unfold selectable. intros Hm Hl. simpl. now rewrite Hm, Hl.
Qed.

Lemma paged_of_list_app {A} (l l' : list A) :
  paged_of_list (l ++ l')%list = paged_app l (paged_of_list l').
Proof. induction l as [|a l IH]; simpl; [reflexivity | now rewrite IH]. Qed.

(** On a listing that does not raise, the loop either finds no message
    that passes its test and leaves the fallback, or stops at the first
    one and takes its last segment. *)
Lemma scan_messages_cases (listing : list ThreadMessage) fallback :
  (List.Forall (fun message => selectable message = false) listing /\
   scan_messages (paged_of_list listing) fallback = ret fallback)
  \/ (exists skipped message rest segment,
        listing = (skipped ++ message :: rest)%list /\
        List.Forall (fun m => selectable m = false) skipped /\
        selectable message = true /\
        last_item (text_messages message) = Some segment /\
        scan_messages (paged_of_list listing) fallback
        = ret (value (text segment))).
Proof.
  induction listing as [|m listing IH].
  - left. split; [constructor | reflexivity].
  - destruct (selectable m) eqn:Hm.
    + right. destruct (selectable_last_item _ Hm) as [segment Hs].
      exists [], m, listing, segment. repeat split; auto.
      simpl paged_of_list. now apply scan_messages_select.
    + destruct IH as [[Hall Hscan]|(skipped & m' & rest & segment & -> & Hsk & Hm' & Hs & Hscan)].
      * left. split; [now constructor|].
        simpl. unfold selectable in Hm. now rewrite Hm.
      * right. exists (m :: skipped), m', rest, segment.
        repeat split; auto.
        simpl. unfold selectable in Hm. now rewrite Hm.
Qed.

Lemma agent_turn_no_thread env client user_text message :
  threads_create client = inl message ->
  agent_turn env client user_text = ([ThreadsCreate], Raise (Exception message)).
Proof. intros H. unfold agent_turn. now rewrite H. Qed.

Lemma agent_turn_no_message env client user_text thread message :
  threads_create client = inr thread ->
  messages_create client (id thread) "user" user_text = inl message ->
  agent_turn env client user_text
  = ([ThreadsCreate; MessagesCreate (id thread) "user" user_text],
     Raise (Exception message)).
Proof. intros H1 H2. unfold agent_turn. rewrite H1. simpl. now rewrite H2. Qed.

Lemma agent_turn_no_run env client user_text thread message :
  threads_create client = inr thread ->
  messages_create client (id thread) "user" user_text = inr tt ->
  runs_create_and_process client (id thread) (AGENT_ID env) = inl message ->
  agent_turn env client user_text
  = ([ThreadsCreate; MessagesCreate (id thread) "user" user_text;
      RunsCreateAndProcess (id thread) (AGENT_ID env)],
     Raise (Exception message)).
Proof.
  intros H1 H2 H3. unfold agent_turn. rewrite H1. simpl. rewrite H2. simpl.
  now rewrite H3.
Qed.

Lemma agent_turn_failed_run env client user_text thread run :
  threads_create client = inr thread ->
  messages_create client (id thread) "user" user_text = inr tt ->
  runs_create_and_process client (id thread) (AGENT_ID env) = inr run ->
  status run = "failed" ->
  agent_turn env client user_text
  = ([ThreadsCreate; MessagesCreate (id thread) "user" user_text;
      RunsCreateAndProcess (id thread) (AGENT_ID env)],
     Return ("The agent encountered an error: " ++ last_error run)).
Proof.
  intros H1 H2 H3 H4. unfold agent_turn. rewrite H1. simpl. rewrite H2. simpl.
  rewrite H3. simpl. now rewrite H4.
Qed.

Lemma agent_turn_listing env client user_text thread run :
  threads_create client = inr thread ->
  messages_create client (id thread) "user" user_text = inr tt ->
  runs_create_and_process client (id thread) (AGENT_ID env) = inr run ->
  status run <> "failed" ->
  agent_turn env client user_text
  = ([ThreadsCreate; MessagesCreate (id thread) "user" user_text;
      RunsCreateAndProcess (id thread) (AGENT_ID env);
      MessagesList (id thread) DESCENDING],
     outcome_of (scan_messages (messages_list client (id thread) DESCENDING)
                   "Sorry, I couldn't get a response.")).
Proof.
  intros H1 H2 H3 H4. unfold agent_turn. rewrite H1. simpl. rewrite H2. simpl.
  rewrite H3. simpl. apply String.eqb_neq in H4. rewrite H4. simpl.
  rewrite (io_eta (scan_messages _ _)), scan_messages_trace. reflexivity.
Qed.

Lemma agent_response_of_turn env client user_text :
  project_client env = Some client ->
  get_agent_response env user_text
  = (CallConversation user_text :: trace (agent_turn env client user_text),
     match outcome_of (agent_turn env client user_text) with
     | Return reply => Return reply
     | Raise _ =>
         Return "I'm sorry, but I encountered an error while trying to process your request."
     end).
Proof.
  intros H. unfold get_agent_response. rewrite H.
  destruct (agent_turn env client user_text) as [t [reply|e]]; simpl;
    [reflexivity | now rewrite List.app_nil_r].
Qed.

Lemma agent_response_no_client env user_text :
  project_client env = None ->
  get_agent_response env user_text
  = ([CallConversation user_text],
     Return "Error: AI Project Client is not initialized. Check server logs.").
Proof. intros H. unfold get_agent_response. now rewrite H. Qed.

(** The stage returns a text whatever the backend does. *)
Lemma agent_response_returns env user_text :
  exists reply, outcome_of (get_agent_response env user_text) = Return reply.
Proof.
  destruct (project_client env) as [client|] eqn:H.
  - rewrite (agent_response_of_turn _ _ _ H). simpl.
    destruct (outcome_of (agent_turn env client user_text)); eauto.
  - rewrite (agent_response_no_client _ _ H). simpl. eauto.
Qed.

(** After a run that did not fail, the reply is what the loop leaves,
    or the apology when walking the listing raises. *)
Lemma agent_response_listed env user_text listing :
  listed env user_text listing ->
  outcome_of (get_agent_response env user_text)
  = match outcome_of (scan_messages listing "Sorry, I couldn't get a response.") with
    | Return reply => Return reply
    | Raise _ =>
        Return "I'm sorry, but I encountered an error while trying to process your request."
    end.
Proof.
  intros (client & thread & run & Hc & H1 & H2 & H3 & H4 & <-).
  rewrite (agent_response_of_turn _ _ _ Hc).
  now rewrite (agent_turn_listing _ _ _ _ _ H1 H2 H3 H4).
Qed.

(** C4.  The conversation stage returns a string for every transcript
    and never raises.  Without an agent client it returns the fixed
    diagnostic and calls nothing; after a failed run it returns a string
    that contains the run's last error; an exception raised while
    provisioning the thread, creating the message, running the agent or
    walking the listing is turned into the fixed apology. *)
Theorem conversation_never_raises env user_text :
  (exists reply, outcome_of (get_agent_response env user_text) = Return reply)
  /\ (project_client env = None ->
      get_agent_response env user_text
      = ([CallConversation user_text],
         Return "Error: AI Project Client is not initialized. Check server logs.")
      /\ List.existsb is_agent_call (trace (get_agent_response env user_text))
         = false)
  /\ (forall client thread run,
        project_client env = Some client ->
        threads_create client = inr thread ->
        messages_create client (id thread) "user" user_text = inr tt ->
        runs_create_and_process client (id thread) (AGENT_ID env) = inr run ->
        status run = "failed" ->
        exists reply,
          outcome_of (get_agent_response env user_text) = Return reply /\
          contains (last_error run) reply)
  /\ (forall client,
        project_client env = Some client ->
        (forall message,
            threads_create client = inl message ->
            outcome_of (get_agent_response env user_text)
            = Return "I'm sorry, but I encountered an error while trying to process your request.")
        /\ (forall thread message,
              threads_create client = inr thread ->
              messages_create client (id thread) "user" user_text = inl message ->
              outcome_of (get_agent_response env user_text)
              = Return "I'm sorry, but I encountered an error while trying to process your request.")
        /\ (forall thread message,
              threads_create client = inr thread ->
              messages_create client (id thread) "user" user_text = inr tt ->
              runs_create_and_process client (id thread) (AGENT_ID env)
              = inl message ->
              outcome_of (get_agent_response env user_text)
              = Return "I'm sorry, but I encountered an error while trying to process your request.")
        /\ (forall listing e,
              listed env user_text listing ->
              outcome_of (scan_messages listing "Sorry, I couldn't get a response.")
              = Raise e ->
              outcome_of (get_agent_response env user_text)
              = Return "I'm sorry, but I encountered an error while trying to process your request.")).
Proof.
  split; [apply agent_response_returns|]. split; [|split].
  - intros H. rewrite (agent_response_no_client _ _ H). now split.
  - intros client thread run Hc H1 H2 H3 H4.
    rewrite (agent_response_of_turn _ _ _ Hc),
      (agent_turn_failed_run _ _ _ _ _ H1 H2 H3 H4). simpl.
    eexists. split; [reflexivity|].
    exact (contains_suffix "The agent encountered an error: " (last_error run)).
  - intros client Hc. repeat split.
    + intros message H1.
      now rewrite (agent_response_of_turn _ _ _ Hc),
        (agent_turn_no_thread _ _ _ _ H1).
    + intros thread message H1 H2.
      now rewrite (agent_response_of_turn _ _ _ Hc),
        (agent_turn_no_message _ _ _ _ _ H1 H2).
    + intros thread message H1 H2 H3.
      now rewrite (agent_response_of_turn _ _ _ Hc),
        (agent_turn_no_run _ _ _ _ _ H1 H2 H3).
    + intros listing e Hl He.
      now rewrite (agent_response_listed _ _ _ Hl), He.
Qed.

(** A backend whose run fails with [rate_limit_exceeded]: the stage
    returns the error text; a backend that cannot be reached: the stage
    returns the apology. *)
Lemma conversation_never_raises_witness :
  (exists reply,
      outcome_of
        (get_agent_response
           (Examples.services (inl "") (inl "")
              (Some (backend_with_thread "thread_1" Examples.failed [])))
           "hi")
      = Return reply /\
      contains "rate_limit_exceeded" reply)
  /\ outcome_of
       (get_agent_response
          (Examples.services (inl "") (inl "") (Some Examples.unreachable))
          "hi")
     = Return "I'm sorry, but I encountered an error while trying to process your request.".
Proof.
  split.
  - exact (proj1 (proj2 (proj2 (conversation_never_raises
                                  (Examples.services (inl "") (inl "")
                                     (Some (backend_with_thread "thread_1"
                                              Examples.failed [])))
                                  "hi")))
             (backend_with_thread "thread_1" Examples.failed [])
             {| id := "thread_1" |} Examples.failed
             eq_refl eq_refl eq_refl eq_refl eq_refl).
  - exact (proj1 (proj2 (proj2 (proj2 (conversation_never_raises
                                         (Examples.services (inl "") (inl "")
                                            (Some Examples.unreachable))
                                         "hi")))
                    Examples.unreachable eq_refl)
             "Connection refused" eq_refl).
Defined.

(** ** Reply selection *)

Lemma selectable_false message :
  selectable message = false <->
  role message <> "assistant" \/ text_messages message = [].
Proof.
  unfold selectable. rewrite andb_false_iff, String.eqb_neq.
  destruct (text_messages message); simpl; split;
    intros [H|H]; auto; discriminate.
Qed.

Lemma selectable_true message segment :
  role message = "assistant" ->
  last_item (text_messages message) = Some segment ->
  selectable message = true.
Proof.
  unfold selectable. intros -> H. rewrite String.eqb_refl.
  now destruct (text_messages message).
Qed.

Lemma not_assistant_not_selectable (l : list ThreadMessage) :
  List.Forall (fun m => role m <> "assistant") l ->
  List.Forall (fun m => selectable m = false) l.
Proof.
  apply List.Forall_impl. intros m H. apply selectable_false. now left.
Qed.

Lemma textless_not_selectable (l : list ThreadMessage) :
  List.Forall (fun m => role m <> "assistant" \/ text_messages m = []) l ->
  List.Forall (fun m => selectable m = false) l.
Proof. apply List.Forall_impl. intros m. apply selectable_false. Qed.

(** The reply is the last segment of the first listed message that
    passes the loop's test, whatever comes after it in the listing. *)
Lemma reply_of_first_selectable env user_text skipped message rest segment :
  listed env user_text (paged_app skipped (PagedItem message rest)) ->
  List.Forall (fun m => selectable m = false) skipped ->
  selectable message = true ->
  last_item (text_messages message) = Some segment ->
  outcome_of (get_agent_response env user_text) = Return (value (text segment)).
Proof.
  intros Hl Hs Hm Hseg.
  rewrite (agent_response_listed _ _ _ Hl), (scan_messages_skip _ _ _ Hs),
    (scan_messages_select _ _ _ _ Hm Hseg).
  reflexivity.
Qed.

Lemma reply_of_none_selectable env user_text listing :
  listed env user_text (paged_of_list listing) ->
  List.Forall (fun m => selectable m = false) listing ->
  outcome_of (get_agent_response env user_text)
  = Return "Sorry, I couldn't get a response.".
Proof.
  intros Hl Hs. rewrite (agent_response_listed _ _ _ Hl).
  pose proof (scan_messages_skip listing PagedEnd
                "Sorry, I couldn't get a response." Hs) as H.
  replace (paged_app listing PagedEnd) with (paged_of_list listing) in H.
  - now rewrite H.
  - rewrite <- (List.app_nil_r listing) at 1.
    exact (paged_of_list_app listing []).
Qed.

Lemma listed_backend_with_thread env user_text thread run log :
  project_client env = Some (backend_with_thread thread run log) ->
  status run <> "failed" ->
  listed env user_text (paged_of_list (List.rev log)).
Proof.
  intros Hc Hr. exists (backend_with_thread thread run log), {| id := thread |}, run.
  repeat split; auto.
Qed.

(** C5, as the specification has it, fails: when the newest assistant
    message of the thread carries no text segment, the first
    assistant-authored message of the listing has no last segment, and
    the reply is taken from an older message. *)
Lemma reply_from_first_assistant_counterexample :
  first_assistant (List.rev Examples.thread_with_textless_reply)
  = Some (Examples.assistant [])
  /\ outcome_of
       (get_agent_response
          (Examples.services (inl "") (inl "")
             (Some (backend_with_thread "thread_1" Examples.completed
                      Examples.thread_with_textless_reply)))
          "hi")
     = Return "older answer"
  /\ ~ (exists segment,
          last_item (text_messages (Examples.assistant [])) = Some segment /\
          outcome_of
            (get_agent_response
               (Examples.services (inl "") (inl "")
                  (Some (backend_with_thread "thread_1" Examples.completed
                           Examples.thread_with_textless_reply)))
               "hi")
          = Return (value (text segment))).
Proof.
  split; [reflexivity|]. split; [reflexivity|].
  intros [segment [H _]]. discriminate H.
Qed.

(** C5, amended.  The reply is the last text segment of the first
    assistant-authored message of the newest-first listing, provided
    that message has a text segment.  For a thread to which assistant
    messages A, B, C were appended in that order, C the newest and with
    a text segment, the reply is the last segment of C.  When the
    thread holds no assistant-authored message the reply is the fixed
    fallback, which is not the empty string. *)
Theorem reply_selection env user_text :
  (forall skipped message rest segment,
      listed env user_text (paged_app skipped (PagedItem message rest)) ->
      List.Forall (fun m => role m <> "assistant") skipped ->
      role message = "assistant" ->
      last_item (text_messages message) = Some segment ->
      outcome_of (get_agent_response env user_text)
      = Return (value (text segment)))
  /\ (forall thread run before a between b between' c after segment,
        project_client env
        = Some (backend_with_thread thread run
                  (before ++ a :: between ++ b :: between' ++ c :: after)%list) ->
        status run <> "failed" ->
        role a = "assistant" -> role b = "assistant" -> role c = "assistant" ->
        List.Forall (fun m => role m <> "assistant") after ->
        last_item (text_messages c) = Some segment ->
        outcome_of (get_agent_response env user_text)
        = Return (value (text segment)))
  /\ (forall listing,
        listed env user_text (paged_of_list listing) ->
        List.Forall (fun m => role m <> "assistant") listing ->
        outcome_of (get_agent_response env user_text)
        = Return "Sorry, I couldn't get a response."
        /\ "Sorry, I couldn't get a response." <> "").
Proof.
  split; [|split].
  - intros skipped message rest segment Hl Hs Hr Hseg.
    apply (reply_of_first_selectable _ _ _ _ _ _ Hl);
      [now apply not_assistant_not_selectable | now apply selectable_true with segment | exact Hseg].
  - intros thread run before a between b between' c after segment
      Hc Hrun _ _ Hrc Hafter Hseg.
    pose proof (listed_backend_with_thread _ user_text _ _ _ Hc Hrun) as Hl.
    replace (before ++ a :: between ++ b :: between' ++ c :: after)%list
      with ((before ++ a :: between ++ b :: between') ++ c :: after)%list in Hl
      by (rewrite <- !List.app_assoc; simpl; rewrite <- !List.app_assoc; reflexivity).
    rewrite List.rev_app_distr in Hl. simpl in Hl.
    rewrite <- List.app_assoc in Hl. simpl in Hl.
    rewrite paged_of_list_app in Hl. simpl in Hl.
    apply (reply_of_first_selectable _ _ _ _ _ _ Hl);
      [| now apply selectable_true with segment | exact Hseg].
    apply not_assistant_not_selectable. now apply List.Forall_rev.
  - intros listing Hl Hs. split; [|discriminate].
    apply (reply_of_none_selectable _ _ _ Hl).
    now apply not_assistant_not_selectable.
Qed.

(** A thread [user, A, B, C] with C of two segments: the reply is the
    second segment of C. *)
Lemma reply_selection_witness :
  outcome_of
    (get_agent_response
       (Examples.services (inl "") (inl "")
          (Some (backend_with_thread "thread_1" Examples.completed
                   Examples.thread_abc)))
       "hi")
  = Return "C2".
Proof.
  exact (proj1 (proj2 (reply_selection
                         (Examples.services (inl "") (inl "")
                            (Some (backend_with_thread "thread_1" Examples.completed
                                     Examples.thread_abc)))
                         "hi"))
           "thread_1" Examples.completed [Examples.user ["hi"]]
           (Examples.assistant ["A"]) [] (Examples.assistant ["B"]) []
           (Examples.assistant ["C1"; "C2"]) [] (Examples.segment "C2")
           eq_refl ltac:(discriminate) eq_refl eq_refl eq_refl
           (List.Forall_nil _) eq_refl).
Defined.

(** C10.  An assistant-authored message without text segments does not
    end the scan: the reply is the last segment of the first listed
    message that is assistant-authored and has a text segment, and the
    fallback is what the stage returns when the listing holds no such
    message. *)
Theorem textless_messages_are_skipped env user_text :
  (forall skipped message rest segment,
      listed env user_text (paged_app skipped (PagedItem message rest)) ->
      List.Forall (fun m => role m <> "assistant" \/ text_messages m = []) skipped ->
      role message = "assistant" ->
      last_item (text_messages message) = Some segment ->
      outcome_of (get_agent_response env user_text)
      = Return (value (text segment)))
  /\ (forall listing,
        listed env user_text (paged_of_list listing) ->
        (List.Forall (fun m => role m <> "assistant" \/ text_messages m = [])
           listing /\
         outcome_of (get_agent_response env user_text)
         = Return "Sorry, I couldn't get a response.")
        \/ (exists skipped message rest segment,
              listing = (skipped ++ message :: rest)%list /\
              List.Forall (fun m => role m <> "assistant" \/ text_messages m = [])
                skipped /\
              role message = "assistant" /\
              last_item (text_messages message) = Some segment /\
              outcome_of (get_agent_response env user_text)
              = Return (value (text segment)))).
Proof.
  split.
  - intros skipped message rest segment Hl Hs Hr Hseg.
    apply (reply_of_first_selectable _ _ _ _ _ _ Hl);
      [now apply textless_not_selectable | now apply selectable_true with segment | exact Hseg].
  - intros listing Hl. rewrite (agent_response_listed _ _ _ Hl).
    destruct (scan_messages_cases listing "Sorry, I couldn't get a response.")
      as [[Hall Hscan]|(skipped & m & rest & segment & Heq & Hsk & Hm & Hseg & Hscan)].
    + left. split; [|now rewrite Hscan].
      revert Hall. apply List.Forall_impl. intros x. apply selectable_false.
    + right. exists skipped, m, rest, segment. repeat split; auto.
      * revert Hsk. apply List.Forall_impl. intros x. apply selectable_false.
      * unfold selectable in Hm. apply andb_prop in Hm as [Hm _].
        now apply String.eqb_eq.
      * now rewrite Hscan.
Qed.

(** The thread whose newest assistant message has no text: that message
    is passed over and the older answer is the reply. *)
Lemma textless_messages_are_skipped_witness :
  outcome_of
    (get_agent_response
       (Examples.services (inl "") (inl "")
          (Some (backend_with_thread "thread_1" Examples.completed
                   Examples.thread_with_textless_reply)))
       "hi")
  = Return "older answer".
Proof.
  refine (proj1 (textless_messages_are_skipped
                   (Examples.services (inl "") (inl "")
                      (Some (backend_with_thread "thread_1" Examples.completed
                               Examples.thread_with_textless_reply)))
                   "hi")
            [Examples.assistant []] (Examples.assistant ["older answer"])
            (paged_of_list [Examples.user ["hi"]])
            (Examples.segment "older answer") _ _ eq_refl eq_refl).
  - exists (backend_with_thread "thread_1" Examples.completed
              Examples.thread_with_textless_reply),
      {| id := "thread_1" |}, Examples.completed.
    repeat split. discriminate.
  - constructor; [now right | constructor].
Defined.

(** ** Synthesis stage *)

Lemma synthesis_on_engine_failure env spoken message :
  speak_text env spoken = inl message ->
  text_to_speech_to_stream env spoken
  = ([CallSynthesis spoken; SpeakText spoken], Raise (Exception message)).
Proof. intros H. unfold text_to_speech_to_stream. simpl. now rewrite H. Qed.

Lemma synthesis_on_report env spoken result :
  speak_text env spoken = inr result ->
  text_to_speech_to_stream env spoken
  = ([CallSynthesis spoken; SpeakText spoken],
     match sr_reason result with
     | SynthesizingAudioCompleted => Return (Some (sr_audio_data result))
     | Canceled =>
         Raise (HTTPException 500
                  ("Text-to-Speech canceled: "
                   ++ str_of_CancellationReason
                        (cd_reason (sr_cancellation_details result))
                   ++ ". Error: "
                   ++ cd_error_details (sr_cancellation_details result)))
     | _ => Return None
     end).
Proof.
  intros H. unfold text_to_speech_to_stream. simpl. rewrite H. simpl.
  now destruct (sr_reason result).
Qed.

Lemma synthesis_trace env spoken :
  trace (text_to_speech_to_stream env spoken)
  = [CallSynthesis spoken; SpeakText spoken].
Proof.
  destruct (speak_text env spoken) as [m|r] eqn:H.
  - now rewrite (synthesis_on_engine_failure _ _ _ H).
  - now rewrite (synthesis_on_report _ _ _ H).
Qed.

(** ** The endpoint past recognition *)

(** Once recognition has returned a non-empty transcript, the pipeline
    ends as synthesis of the reply ends. *)
Lemma pipeline_after_recognition env file audio_data user_text reply :
  read file = inr audio_data ->
  outcome_of (speech_to_text_from_audio_data env audio_data) = Return user_text ->
  user_text <> "" ->
  outcome_of (get_agent_response env user_text) = Return reply ->
  outcome_of (chat_pipeline env file)
  = match outcome_of (text_to_speech_to_stream env reply) with
    | Return (Some audio) =>
        Return {| content := audio; status_code := 200; media_type := "audio/wav" |}
    | Return None =>
        Raise (Exception "'NoneType' object has no attribute 'getvalue'")
    | Raise e => Raise e
    end.
Proof.
  intros Hf Hs Hne Hg. unfold chat_pipeline. rewrite Hf. simpl.
  rewrite (bind_return _ _ _ Hs). simpl.
  apply String.eqb_neq in Hne. rewrite Hne.
  rewrite (bind_return _ _ _ Hg). simpl.
  destruct (text_to_speech_to_stream env reply) as [t [[audio|]|e]]; reflexivity.
Qed.

Lemma endpoint_trace env file :
  trace (chat_endpoint env file) = trace (chat_pipeline env file).
Proof.
  unfold chat_endpoint.
  destruct (chat_pipeline env file) as [t [r|[code detail|message]]]; simpl;
    try reflexivity; apply List.app_nil_r.
Qed.

Lemma endpoint_outcome env file :
  outcome_of (chat_endpoint env file)
  = match outcome_of (chat_pipeline env file) with
    | Return r => Return r
    | Raise (HTTPException code detail) => Raise (HTTPException code detail)
    | Raise (Exception message) =>
        Raise (HTTPException 500
                 ("An internal server error occurred. Details: " ++ message))
    end.
Proof.
  unfold chat_endpoint.
  now destruct (chat_pipeline env file) as [t [r|[code detail|message]]].
Qed.

(** C1.  When the upload is read, recognition returns a non-empty
    transcript and synthesis of the reply of the conversation stage
    completes with some audio, the endpoint returns a response of
    status 200 whose body is exactly that audio, held whole in the
    response with its length, and whose media type is audio/wav. *)
Theorem chat_endpoint_returns_audio env file audio_data user_text reply audio :
  read file = inr audio_data ->
  outcome_of (speech_to_text_from_audio_data env audio_data) = Return user_text ->
  user_text <> "" ->
  outcome_of (get_agent_response env user_text) = Return reply ->
  outcome_of (text_to_speech_to_stream env reply) = Return (Some audio) ->
  exists response,
    outcome_of (chat_endpoint env file) = Return response /\
    status_code response = 200 /\
    content response = audio /\
    media_type response = "audio/wav" /\
    content_length response = Z.of_nat (List.length audio).
Proof.
  intros Hf Hs Hne Hg Ht.
  pose proof (pipeline_after_recognition _ _ _ _ _ Hf Hs Hne Hg) as Hp.
  rewrite Ht in Hp.
  exists {| content := audio; status_code := 200; media_type := "audio/wav" |}.
  rewrite endpoint_outcome, Hp. repeat split.
Qed.

(** The 16 kHz clip, heard as "hello", with no agent client: the
    diagnostic is spoken and its audio is the body of the 200. *)
Lemma chat_endpoint_returns_audio_witness :
  exists response,
    outcome_of
      (chat_endpoint
         (Examples.services (inr (Examples.heard "hello"))
            (inr (Examples.synthesis SynthesizingAudioCompleted)) None)
         (Examples.upload Examples.clip_16k_mono))
    = Return response /\
    status_code response = 200 /\
    content response = Examples.reply_audio /\
    media_type response = "audio/wav" /\
    content_length response = 6.
Proof.
  exact (chat_endpoint_returns_audio
           (Examples.services (inr (Examples.heard "hello"))
              (inr (Examples.synthesis SynthesizingAudioCompleted)) None)
           (Examples.upload Examples.clip_16k_mono)
           Examples.clip_16k_mono "hello"
           "Error: AI Project Client is not initialized. Check server logs."
           Examples.reply_audio
           eq_refl eq_refl ltac:(discriminate) eq_refl eq_refl).
Defined.

(** C6.  When the synthesis engine reports neither completion nor
    cancellation, the synthesis stage returns [None], and the endpoint,
    reaching for the bytes of that absent stream, answers with an HTTP
    500: it returns no response, so no 200 with empty audio. *)
Theorem absent_synthesis_is_an_error env spoken result :
  speak_text env spoken = inr result ->
  sr_reason result <> SynthesizingAudioCompleted ->
  sr_reason result <> Canceled ->
  outcome_of (text_to_speech_to_stream env spoken) = Return None
  /\ forall file audio_data user_text,
       read file = inr audio_data ->
       outcome_of (speech_to_text_from_audio_data env audio_data)
       = Return user_text ->
       user_text <> "" ->
       outcome_of (get_agent_response env user_text) = Return spoken ->
       (exists detail,
           outcome_of (chat_endpoint env file) = Raise (HTTPException 500 detail))
       /\ forall response,
            outcome_of (chat_endpoint env file) <> Return response.
Proof.
  intros Hr Hnc Hnx.
  assert (Ht : outcome_of (text_to_speech_to_stream env spoken) = Return None).
  { rewrite (synthesis_on_report _ _ _ Hr). simpl.
    destruct (sr_reason result); congruence. }
  split; [exact Ht|].
  intros file audio_data user_text Hf Hs Hne Hg.
  pose proof (pipeline_after_recognition _ _ _ _ _ Hf Hs Hne Hg) as Hp.
  rewrite Ht in Hp. rewrite endpoint_outcome, Hp.
  split; [eauto | discriminate].
Qed.

(** A synthesizer that stops at "audio started": the stage returns
    [None] and the request ends in a 500. *)
Lemma absent_synthesis_is_an_error_witness :
  outcome_of
    (text_to_speech_to_stream
       (Examples.services (inr (Examples.heard "hello"))
          (inr (Examples.synthesis SynthesizingAudioStarted)) None)
       "Error: AI Project Client is not initialized. Check server logs.")
  = Return None
  /\ exists detail,
       outcome_of
         (chat_endpoint
            (Examples.services (inr (Examples.heard "hello"))
               (inr (Examples.synthesis SynthesizingAudioStarted)) None)
            (Examples.upload Examples.clip_16k_mono))
       = Raise (HTTPException 500 detail).
Proof.
  destruct (absent_synthesis_is_an_error
              (Examples.services (inr (Examples.heard "hello"))
                 (inr (Examples.synthesis SynthesizingAudioStarted)) None)
              "Error: AI Project Client is not initialized. Check server logs."
              (Examples.synthesis SynthesizingAudioStarted)
              eq_refl ltac:(discriminate) ltac:(discriminate)) as [Hstage Hend].
  split; [exact Hstage|].
  exact (proj1 (Hend (Examples.upload Examples.clip_16k_mono)
                  Examples.clip_16k_mono "hello"
                  eq_refl eq_refl ltac:(discriminate) eq_refl)).
Defined.

(** ** The error boundary of the endpoint *)

(** C7, as the specification has it, fails: an exception raised inside
    the pipeline by the agent backend is not caught at the endpoint and
    gives no 500.  The conversation stage turns it into its apology,
    which is spoken, and the request is answered with a 200. *)
Lemma agent_exception_counterexample :
  outcome_of
    (agent_turn
       (Examples.services (inr (Examples.heard "hello"))
          (inr (Examples.synthesis SynthesizingAudioCompleted))
          (Some Examples.unreachable))
       Examples.unreachable "hello")
  = Raise (Exception "Connection refused")
  /\ outcome_of
       (chat_endpoint
          (Examples.services (inr (Examples.heard "hello"))
             (inr (Examples.synthesis SynthesizingAudioCompleted))
             (Some Examples.unreachable))
          (Examples.upload Examples.clip_16k_mono))
     = Return {| content := Examples.reply_audio;
                 status_code := 200;
                 media_type := "audio/wav" |}
  /\ ~ (exists detail,
          outcome_of
            (chat_endpoint
               (Examples.services (inr (Examples.heard "hello"))
                  (inr (Examples.synthesis SynthesizingAudioCompleted))
                  (Some Examples.unreachable))
               (Examples.upload Examples.clip_16k_mono))
          = Raise (HTTPException 500 detail)).
Proof.
  split; [reflexivity|]. split; [reflexivity|].
  intros [detail H]. vm_compute in H. discriminate H.
Qed.

(** C7, amended.  An exception that leaves a stage of the pipeline
    (reading the upload, recognition, synthesis, taking the bytes of
    the synthesized stream) and is no [HTTPException] is turned by the
    endpoint, once, into an HTTP 500 whose detail is a fixed prefix
    followed by the message of the exception; an [HTTPException] leaves
    the endpoint with its status code and detail unchanged.  The
    conversation stage raises nothing: what is raised inside it stays
    inside it. *)
Theorem endpoint_error_boundary env file :
  (forall message,
      outcome_of (chat_pipeline env file) = Raise (Exception message) ->
      outcome_of (chat_endpoint env file)
      = Raise (HTTPException 500
                 ("An internal server error occurred. Details: " ++ message))
      /\ contains message
           ("An internal server error occurred. Details: " ++ message))
  /\ (forall code detail,
        outcome_of (chat_pipeline env file) = Raise (HTTPException code detail) ->
        outcome_of (chat_endpoint env file) = Raise (HTTPException code detail))
  /\ (forall message,
        read file = inl message ->
        outcome_of (chat_pipeline env file) = Raise (Exception message))
  /\ (forall audio_data e,
        read file = inr audio_data ->
        outcome_of (speech_to_text_from_audio_data env audio_data) = Raise e ->
        outcome_of (chat_pipeline env file) = Raise e)
  /\ (forall audio_data user_text reply e,
        read file = inr audio_data ->
        outcome_of (speech_to_text_from_audio_data env audio_data)
        = Return user_text ->
        user_text <> "" ->
        outcome_of (get_agent_response env user_text) = Return reply ->
        outcome_of (text_to_speech_to_stream env reply) = Raise e ->
        outcome_of (chat_pipeline env file) = Raise e)
  /\ (forall audio_data user_text reply,
        read file = inr audio_data ->
        outcome_of (speech_to_text_from_audio_data env audio_data)
        = Return user_text ->
        user_text <> "" ->
        outcome_of (get_agent_response env user_text) = Return reply ->
        outcome_of (text_to_speech_to_stream env reply) = Return None ->
        outcome_of (chat_pipeline env file)
        = Raise (Exception "'NoneType' object has no attribute 'getvalue'"))
  /\ (forall user_text e,
        outcome_of (get_agent_response env user_text) <> Raise e).
Proof.
  repeat split.
  - now rewrite endpoint_outcome, H.
  - apply contains_suffix.
  - intros code detail H. now rewrite endpoint_outcome, H.
  - intros message H. now rewrite (pipeline_on_unreadable_upload _ _ _ H).
  - intros audio_data e Hf He.
    now rewrite (pipeline_on_recognition_error _ _ _ _ Hf He).
  - intros audio_data user_text reply e Hf Hs Hne Hg Ht.
    now rewrite (pipeline_after_recognition _ _ _ _ _ Hf Hs Hne Hg), Ht.
  - intros audio_data user_text reply Hf Hs Hne Hg Ht.
    now rewrite (pipeline_after_recognition _ _ _ _ _ Hf Hs Hne Hg), Ht.
  - intros user_text e H.
    destruct (agent_response_returns env user_text) as [reply Hr].
    congruence.
Qed.

(** An upload that is no clip: the reader's message comes back in the
    detail of a 500.  A cancelled recognition: its 500 and its detail
    come back as the stage raised them. *)
Lemma endpoint_error_boundary_witness :
  outcome_of
    (chat_endpoint (Examples.services (inl "") (inl "") None)
       (Examples.upload Examples.not_a_clip))
  = Raise (HTTPException 500
             "An internal server error occurred. Details: file does not start with RIFF id")
  /\ outcome_of
       (chat_endpoint
          (Examples.services (inr (Examples.reported Canceled)) (inl "") None)
          (Examples.upload Examples.clip_16k_mono))
     = Raise (HTTPException 500
                "Speech Recognition canceled: CancellationReason.Error. Error: Connection was closed by the remote host.").
Proof.
  split.
  - exact (proj1 (proj1 (endpoint_error_boundary
                           (Examples.services (inl "") (inl "") None)
                           (Examples.upload Examples.not_a_clip))
                    "file does not start with RIFF id" eq_refl)).
  - exact (proj1 (proj2 (endpoint_error_boundary
                           (Examples.services (inr (Examples.reported Canceled))
                              (inl "") None)
                           (Examples.upload Examples.clip_16k_mono)))
             500
             "Speech Recognition canceled: CancellationReason.Error. Error: Connection was closed by the remote host."
             eq_refl).
Defined.

(** ** No empty transcript past recognition *)

Lemma recognition_trace_upstream env audio_data :
  List.existsb is_downstream
    (trace (speech_to_text_from_audio_data env audio_data)) = false.
Proof.
  destruct (wave_open env audio_data) as [m|w] eqn:Hw.
  - now rewrite (recognition_on_bad_clip _ _ _ Hw).
  - destruct (recognize_once env (stream_format_of w) (frames_of w))
      as [m|r] eqn:Hr.
    + now rewrite (recognition_on_engine_failure _ _ _ _ Hw Hr).
    + now rewrite (recognition_on_report _ _ _ _ Hw Hr).
Qed.

Lemma existsb_false_in {A} (p : A -> bool) (l : list A) (a : A) :
  List.existsb p l = false -> List.In a l -> p a = false.
Proof.
  intros H Hin. destruct (p a) eqn:Hp; [|reflexivity].
  assert (List.existsb p l = true) by (apply List.existsb_exists; eauto).
  congruence.
Qed.

(** C8.  Whenever an event of the conversation or synthesis stage
    occurs in a request, recognition had returned a non-empty
    transcript.  When recognition returns the empty string, as it does
    for every engine report other than recognized, no-match and
    cancelled, the endpoint raises the HTTP 400
    ["Could not understand the audio."] right after recognition, with
    no event of a later stage. *)
Theorem empty_transcript_stops_pipeline env file :
  (forall ev,
      List.In ev (trace (chat_endpoint env file)) ->
      is_downstream ev = true ->
      exists audio_data user_text,
        read file = inr audio_data /\
        outcome_of (speech_to_text_from_audio_data env audio_data)
        = Return user_text /\
        user_text <> "")
  /\ (forall audio_data,
        read file = inr audio_data ->
        outcome_of (speech_to_text_from_audio_data env audio_data) = Return "" ->
        chat_endpoint env file
        = (UploadRead :: trace (speech_to_text_from_audio_data env audio_data),
           Raise (HTTPException 400 "Could not understand the audio."))
        /\ List.existsb is_downstream (trace (chat_endpoint env file)) = false)
  /\ (forall audio_data result,
        engine_report env audio_data = Some result ->
        rr_reason result <> RecognizedSpeech ->
        rr_reason result <> NoMatch ->
        rr_reason result <> Canceled ->
        outcome_of (speech_to_text_from_audio_data env audio_data) = Return "").
Proof.
  split; [|split].
  - intros ev Hin Hdown. rewrite endpoint_trace in Hin.
    destruct (read file) as [m|audio_data] eqn:Hf.
    { rewrite (pipeline_on_unreadable_upload _ _ _ Hf) in Hin.
      destruct Hin as [<-|[]]. discriminate. }
    destruct (outcome_of (speech_to_text_from_audio_data env audio_data))
      as [user_text|e] eqn:Hs.
    + destruct (String.eqb_spec user_text "") as [->|Hne].
      * rewrite (pipeline_on_empty_transcript _ _ _ Hf Hs) in Hin.
        destruct Hin as [<-|Hin]; [discriminate|].
        rewrite (existsb_false_in _ _ _ (recognition_trace_upstream _ _) Hin)
          in Hdown. discriminate.
      * eauto.
    + rewrite (pipeline_on_recognition_error _ _ _ _ Hf Hs) in Hin.
      destruct Hin as [<-|Hin]; [discriminate|].
      rewrite (existsb_false_in _ _ _ (recognition_trace_upstream _ _) Hin)
        in Hdown. discriminate.
  - intros audio_data Hf Hs.
    pose proof (pipeline_on_empty_transcript _ _ _ Hf Hs) as Hp.
    assert (He : chat_endpoint env file
                 = (UploadRead :: trace (speech_to_text_from_audio_data env audio_data),
                    Raise (HTTPException 400 "Could not understand the audio."))).
    { rewrite (endpoint_on_http_error env file 400 "Could not understand the audio.");
        now rewrite Hp. }
    split; [exact He|]. rewrite He. simpl. apply recognition_trace_upstream.
  - intros audio_data result Hrep H1 H2 H3.
    rewrite (recognition_of_report _ _ _ Hrep).
    destruct (rr_reason result); congruence.
Qed.

(** An engine that reports a keyword instead of speech: the transcript
    is empty, the request ends in the 400 and nothing after recognition
    has run. *)
Lemma empty_transcript_stops_pipeline_witness :
  chat_endpoint
    (Examples.services (inr (Examples.reported RecognizedKeyword))
       (inr (Examples.synthesis SynthesizingAudioCompleted))
       (Some Examples.unreachable))
    (Examples.upload Examples.clip_16k_mono)
  = ([UploadRead; CallRecognition Examples.clip_16k_mono;
      PushStreamWrite
        {| samples_per_second := 16000; bits_per_sample := 16; channels := 1 |}
        [x01; x00; xff; x7f];
      PushStreamClose; RecognizeOnce],
     Raise (HTTPException 400 "Could not understand the audio.")).
Proof.
  exact (proj1 (proj1 (proj2 (empty_transcript_stops_pipeline
                                (Examples.services
                                   (inr (Examples.reported RecognizedKeyword))
                                   (inr (Examples.synthesis SynthesizingAudioCompleted))
                                   (Some Examples.unreachable))
                                (Examples.upload Examples.clip_16k_mono)))
                  Examples.clip_16k_mono eq_refl eq_refl)).
Defined.

(** ** The client's duplicate-submission guard *)

Lemma differs_false data last :
  App.differs data last = false <-> last = Some data.
Proof.
  unfold App.differs, bytes_eqb. destruct last as [previous|].
  - destruct (bytes_eq_dec data previous) as [->|Hne]; simpl; split;
      intros H; try reflexivity; try discriminate.
    injection H as ->. now elim Hne.
  - split; discriminate.
Qed.

Lemma differs_true data last :
  App.differs data last = true <-> last <> Some data.
Proof.
  rewrite <- differs_false. destruct (App.differs data last); split;
    intros; congruence.
Qed.

Lemma posts_app (a b : list App.ui_event) :
  App.posts (a ++ b)%list = (App.posts a ++ App.posts b)%list.
Proof.
  induction a as [|ev a IH]; simpl; [reflexivity|].
  destruct ev; simpl; now rewrite IH.
Qed.

Lemma display_history_posts st : App.posts (App.display_history st) = [].
Proof.
  unfold App.display_history. now induction (App.messages st).
Qed.

Lemma autoplay_handler_spec st :
  App.posts (fst (App.autoplay_handler st)) = []
  /\ App.last_audio (snd (App.autoplay_handler st)) = App.last_audio st.
Proof.
  unfold App.autoplay_handler.
  destruct (App.audio_to_play st) as [clip|]; [|now split].
  now destruct (nonempty clip).
Qed.

(** The main logic posts the clip exactly when it differs from
    [last_audio], and then remembers it. *)
Lemma main_logic_spec post wav_audio_data st :
  App.posts (fst (App.main_logic post wav_audio_data st))
  = match wav_audio_data with
    | Some data => if App.differs data (App.last_audio st) then [data] else []
    | None => []
    end
  /\ App.last_audio (snd (App.main_logic post wav_audio_data st))
     = match wav_audio_data with
       | Some data =>
           if App.differs data (App.last_audio st)
           then Some data else App.last_audio st
       | None => App.last_audio st
       end.
Proof.
  unfold App.main_logic. destruct wav_audio_data as [data|]; [|now split].
  destruct (App.differs data (App.last_audio st)); [|now split].
  destruct (post data) as [e|response]; [now split|].
  now destruct (App.status_code response =? 200)%Z.
Qed.

Lemma script_spec post wav_audio_data stored :
  App.posts (fst (App.script post wav_audio_data stored))
  = match wav_audio_data with
    | Some data =>
        if App.differs data (App.last_audio (App.initialize stored))
        then [data] else []
    | None => []
    end
  /\ App.last_audio (snd (App.script post wav_audio_data stored))
     = match wav_audio_data with
       | Some data =>
           if App.differs data (App.last_audio (App.initialize stored))
           then Some data else App.last_audio (App.initialize stored)
       | None => App.last_audio (App.initialize stored)
       end.
Proof.
  unfold App.script.
  destruct (autoplay_handler_spec (App.initialize stored)) as [Hp Hl].
  destruct (App.autoplay_handler (App.initialize stored)) as [played st1].
  simpl in Hp, Hl.
  destruct (main_logic_spec post wav_audio_data st1) as [Hp' Hl'].
  destruct (App.main_logic post wav_audio_data st1) as [acted st2].
  simpl in Hp', Hl'. simpl.
  rewrite !posts_app, display_history_posts, Hp, Hp', Hl', Hl. now split.
Qed.

Lemma reruns_cons wav_audio_data post later stored :
  App.posts (fst (App.reruns ((wav_audio_data, post) :: later) stored))
  = (App.posts (fst (App.script post wav_audio_data stored))
     ++ App.posts
          (fst (App.reruns later
                  (Some (snd (App.script post wav_audio_data stored))))))%list.
Proof.
  cbn [App.reruns].
  destruct (App.script post wav_audio_data stored) as [events st]. cbn [fst snd].
  destruct (App.reruns later (Some st)) as [events' final]. cbn [fst].
  apply posts_app.
Qed.

(** Over any number of reruns, no payload is posted twice in a row, and
    the first one posted is not the one the session remembers. *)
Lemma reruns_no_repeat inputs :
  forall stored,
    App.no_repeat (App.posts (fst (App.reruns inputs stored)))
    /\ forall first rest,
         App.posts (fst (App.reruns inputs stored)) = first :: rest ->
         App.last_audio (App.initialize stored) <> Some first.
Proof.
  induction inputs as [|[wav_audio_data post] later IH]; intros stored.
  - simpl. split; [exact I | discriminate].
  - rewrite reruns_cons.
    destruct (script_spec post wav_audio_data stored) as [Hp Hl].
    destruct (IH (Some (snd (App.script post wav_audio_data stored))))
      as [Hnr Hfirst]. simpl App.initialize in Hfirst.
    rewrite Hp. rewrite Hl in Hfirst.
    destruct wav_audio_data as [data|]; [|now split].
    destruct (App.differs data (App.last_audio (App.initialize stored))) eqn:Hd;
      [|now split].
    remember (App.posts
                (fst (App.reruns later
                        (Some (snd (App.script post (Some data) stored))))))
      as after eqn:Hafter.
    simpl. split.
    + split; [|exact Hnr].
      destruct after as [|next rest]; [exact I|].
      intros ->. now apply (Hfirst next rest).
    + intros first rest H. injection H as <- _. now apply differs_true.
Qed.

(** C9.  A run of the script posts the captured clip exactly when its
    bytes differ from the clip the session last submitted: a differing
    clip is always posted, once, and becomes the one remembered; the
    same clip presented again in the next run is not posted, so two
    presentations in succession make one POST; and over any number of
    runs of a session no payload is posted twice in a row. *)
Theorem duplicate_submission_guard post stored data :
  (App.last_audio (App.initialize stored) <> Some data ->
   App.posts (fst (App.script post (Some data) stored)) = [data])
  /\ (App.last_audio (App.initialize stored) = Some data ->
      App.posts (fst (App.script post (Some data) stored)) = [])
  /\ App.last_audio (snd (App.script post (Some data) stored)) = Some data
  /\ (forall post',
        App.posts
          (fst (App.script post' (Some data)
                  (Some (snd (App.script post (Some data) stored)))))
        = [])
  /\ (forall post',
        App.last_audio (App.initialize stored) <> Some data ->
        App.posts
          (fst (App.reruns [(Some data, post); (Some data, post')] stored))
        = [data])
  /\ (forall inputs,
        App.no_repeat (App.posts (fst (App.reruns inputs stored)))).
Proof.
  destruct (script_spec post (Some data) stored) as [Hp Hl].
  assert (Hremember :
            App.last_audio (snd (App.script post (Some data) stored)) = Some data).
  { rewrite Hl.
    destruct (App.differs data _) eqn:Hd; [reflexivity|].
    now apply differs_false. }
  assert (Hagain : forall post',
             App.posts
               (fst (App.script post' (Some data)
                       (Some (snd (App.script post (Some data) stored)))))
             = []).
  { intros post'.
    destruct (script_spec post' (Some data)
                (Some (snd (App.script post (Some data) stored)))) as [Hp' _].
    rewrite Hp'. simpl App.initialize.
    now rewrite (proj2 (differs_false _ _) Hremember). }
  repeat split.
  - intros Hne. rewrite Hp. now rewrite (proj2 (differs_true _ _) Hne).
  - intros Heq. rewrite Hp. now rewrite (proj2 (differs_false _ _) Heq).
  - exact Hremember.
  - exact Hagain.
  - intros post' Hne. rewrite !reruns_cons. simpl App.reruns. simpl fst at 3.
    rewrite Hagain, Hp, (proj2 (differs_true _ _) Hne). reflexivity.
  - intros inputs. apply reruns_no_repeat.
Qed.

(** In a fresh session the 16 kHz clip presented in two runs in a row
    is posted once; with the 8 kHz clip in between it is posted
    again. *)
Lemma duplicate_submission_guard_witness :
  App.posts
    (fst (App.reruns
            [(Some Examples.clip_16k_mono,
              Examples.answers 200 Examples.reply_audio "");
             (Some Examples.clip_16k_mono,
              Examples.answers 200 Examples.reply_audio "")]
            None))
  = [Examples.clip_16k_mono]
  /\ App.posts
       (fst (App.reruns
               [(Some Examples.clip_16k_mono,
                 Examples.answers 200 Examples.reply_audio "");
                (Some Examples.clip_8k_stereo,
                 Examples.answers 503 [] "busy");
                (Some Examples.clip_16k_mono,
                 Examples.answers 200 Examples.reply_audio "")]
               None))
     = [Examples.clip_16k_mono; Examples.clip_8k_stereo; Examples.clip_16k_mono].
Proof.
  split; [|reflexivity].
  exact (proj1 (proj2 (proj2 (proj2 (proj2
           (duplicate_submission_guard
              (Examples.answers 200 Examples.reply_audio "") None
              Examples.clip_16k_mono)))))
           (Examples.answers 200 Examples.reply_audio "")
           ltac:(discriminate)).
Defined.

(** * Further properties of the server *)

(** ** Order of the stages *)

Lemma pipeline_trace_after_recognition env file audio_data user_text reply :
  read file = inr audio_data ->
  outcome_of (speech_to_text_from_audio_data env audio_data) = Return user_text ->
  user_text <> "" ->
  outcome_of (get_agent_response env user_text) = Return reply ->
  trace (chat_pipeline env file)
  = (UploadRead :: trace (speech_to_text_from_audio_data env audio_data)
       ++ trace (get_agent_response env user_text)
       ++ [CallSynthesis reply; SpeakText reply])%list.
Proof.
  intros Hf Hs Hne Hg. unfold chat_pipeline. rewrite Hf. simpl.
  rewrite (bind_return _ _ _ Hs). simpl.
  apply String.eqb_neq in Hne. rewrite Hne.
  rewrite (bind_return _ _ _ Hg). simpl.
  pose proof (synthesis_trace env reply) as Ht.
  destruct (text_to_speech_to_stream env reply) as [t [[audio|]|e]];
    simpl in Ht; subst t; simpl; reflexivity.
Qed.

(** X1.  Past a non-empty transcript the stages run strictly one after
    the other, each once: the events of a request are the upload read,
    those of recognition, those of the conversation turn on that
    transcript, then one synthesis call, and the text sent to synthesis
    is exactly the reply the conversation stage returned. *)
Theorem pipeline_runs_stages_in_order env file audio_data user_text reply :
  read file = inr audio_data ->
  outcome_of (speech_to_text_from_audio_data env audio_data) = Return user_text ->
  user_text <> "" ->
  outcome_of (get_agent_response env user_text) = Return reply ->
  trace (chat_endpoint env file)
  = (UploadRead :: trace (speech_to_text_from_audio_data env audio_data)
       ++ trace (get_agent_response env user_text)
       ++ [CallSynthesis reply; SpeakText reply])%list.
Proof.
  intros Hf Hs Hne Hg. rewrite endpoint_trace.
  now apply pipeline_trace_after_recognition.
Qed.

(** A request whose agent run failed: thread, message, run, no
    listing, and the error text is what gets spoken. *)
Lemma pipeline_runs_stages_in_order_witness :
  trace
    (chat_endpoint
       (Examples.services (inr (Examples.heard "hello"))
          (inr (Examples.synthesis SynthesizingAudioCompleted))
          (Some (backend_with_thread "thread_1" Examples.failed [])))
       (Examples.upload Examples.clip_16k_mono))
  = [UploadRead; CallRecognition Examples.clip_16k_mono;
     PushStreamWrite
       {| samples_per_second := 16000; bits_per_sample := 16; channels := 1 |}
       [x01; x00; xff; x7f];
     PushStreamClose; RecognizeOnce;
     CallConversation "hello"; ThreadsCreate;
     MessagesCreate "thread_1" "user" "hello";
     RunsCreateAndProcess "thread_1" "asst_demo";
     CallSynthesis "The agent encountered an error: rate_limit_exceeded";
     SpeakText "The agent encountered an error: rate_limit_exceeded"].
Proof.
  exact (pipeline_runs_stages_in_order
           (Examples.services (inr (Examples.heard "hello"))
              (inr (Examples.synthesis SynthesizingAudioCompleted))
              (Some (backend_with_thread "thread_1" Examples.failed [])))
           (Examples.upload Examples.clip_16k_mono)
           Examples.clip_16k_mono "hello"
           "The agent encountered an error: rate_limit_exceeded"
           eq_refl eq_refl ltac:(discriminate) eq_refl).
Defined.

(** ** Protocol of a conversation turn *)



(** ** Outcomes of synthesis *)

(** X3.  The synthesis stage makes one engine call, on the text it is
    given.  It returns audio exactly when the engine reports completed
    synthesis, and then the engine's audio; it raises an HTTP error
    exactly when the engine reports a cancellation, and then status 500
    with the cancellation reason and error details in the detail; it
    raises another exception exactly when the engine call itself
    raises, with the same message. *)
Theorem synthesis_outcomes env spoken :
  trace (text_to_speech_to_stream env spoken)
  = [CallSynthesis spoken; SpeakText spoken]
  /\ (forall audio,
        outcome_of (text_to_speech_to_stream env spoken) = Return (Some audio)
        <-> exists result,
              speak_text env spoken = inr result /\
              sr_reason result = SynthesizingAudioCompleted /\
              sr_audio_data result = audio)
  /\ (forall code detail,
        outcome_of (text_to_speech_to_stream env spoken)
        = Raise (HTTPException code detail)
        <-> exists result,
              speak_text env spoken = inr result /\
              sr_reason result = Canceled /\
              code = 500 /\
              detail = "Text-to-Speech canceled: "
                       ++ str_of_CancellationReason
                            (cd_reason (sr_cancellation_details result))
                       ++ ". Error: "
                       ++ cd_error_details (sr_cancellation_details result))
  /\ (forall message,
        outcome_of (text_to_speech_to_stream env spoken)
        = Raise (Exception message)
        <-> speak_text env spoken = inl message).
Proof.
  split; [apply synthesis_trace|].
  destruct (speak_text env spoken) as [m|result] eqn:Hr.
  - rewrite (synthesis_on_engine_failure _ _ _ Hr). simpl.
    repeat split; try discriminate; try congruence.
    + intros (result & H & _). discriminate.
    + intros (result & H & _). discriminate.
  - rewrite (synthesis_on_report _ _ _ Hr). simpl. repeat split.
    + intros H. exists result.
      destruct (sr_reason result); try discriminate. injection H as <-. auto.
    + intros (r & H & Hreason & <-). injection H as <-. now rewrite Hreason.
    + intros H. exists result.
      destruct (sr_reason result); try discriminate. injection H as <- <-. auto.
    + intros (r & H & Hreason & -> & ->). injection H as <-. now rewrite Hreason.
    + intros H. destruct (sr_reason result); discriminate.
    + discriminate.
Qed.



(** ** Failures before and inside recognition *)

(** X5.  An upload the [wave] reader rejects is answered with status
    500, not 400, carrying the reader's message, and the speech engine
    is never called for it; when the engine call raises after the
    frames were pushed, the request is likewise answered with a 500
    carrying that message, and nothing after recognition runs. *)
Theorem recognition_library_failures env file audio_data :
  read file = inr audio_data ->
  (forall message,
      wave_open env audio_data = inl message ->
      chat_endpoint env file
      = ([UploadRead; CallRecognition audio_data],
         Raise (HTTPException 500
                  ("An internal server error occurred. Details: " ++ message))))
  /\ (forall w message,
        wave_open env audio_data = inr w ->
        recognize_once env (stream_format_of w) (frames_of w) = inl message ->
        chat_endpoint env file
        = ([UploadRead; CallRecognition audio_data;
            PushStreamWrite (stream_format_of w) (frames_of w);
            PushStreamClose; RecognizeOnce],
           Raise (HTTPException 500
                    ("An internal server error occurred. Details: " ++ message)))).
Proof.
  intros Hf. split.
  - intros message Hw.
    pose proof (recognition_on_bad_clip _ _ _ Hw) as Hs.
    assert (Hp : chat_pipeline env file
                 = ([UploadRead; CallRecognition audio_data],
                    Raise (Exception message))).
    { rewrite (pipeline_on_recognition_error env file audio_data
                 (Exception message) Hf); now rewrite Hs. }
    rewrite (endpoint_on_exception env file message); now rewrite Hp.
  - intros w message Hw Hr.
    pose proof (recognition_on_engine_failure _ _ _ _ Hw Hr) as Hs.
    assert (Hp : chat_pipeline env file
                 = ([UploadRead; CallRecognition audio_data;
                     PushStreamWrite (stream_format_of w) (frames_of w);
                     PushStreamClose; RecognizeOnce],
                    Raise (Exception message))).
    { rewrite (pipeline_on_recognition_error env file audio_data
                 (Exception message) Hf); now rewrite Hs. }
    rewrite (endpoint_on_exception env file message); now rewrite Hp.
Qed.

Lemma recognition_library_failures_witness :
  chat_endpoint
    (Examples.services (inr (Examples.heard "hello")) (inl "") None)
    (Examples.upload Examples.not_a_clip)
  = ([UploadRead; CallRecognition Examples.not_a_clip],
     Raise (HTTPException 500
              "An internal server error occurred. Details: file does not start with RIFF id")).
Proof.
  exact (proj1 (recognition_library_failures
                  (Examples.services (inr (Examples.heard "hello")) (inl "") None)
                  (Examples.upload Examples.not_a_clip)
                  Examples.not_a_clip eq_refl)
           "file does not start with RIFF id" eq_refl).
Defined.

(** ** A server without agent client *)

(** X6.  When the agent client is [None], a request with a non-empty
    transcript calls no agent backend, sends the fixed diagnostic text
    to synthesis, and, synthesis completing, is answered with status
    200 and the audio of that diagnostic. *)
Theorem uninitialized_agent_still_answers env file audio_data user_text :
  project_client env = None ->
  read file = inr audio_data ->
  outcome_of (speech_to_text_from_audio_data env audio_data) = Return user_text ->
  user_text <> "" ->
  trace (chat_endpoint env file)
  = (UploadRead :: trace (speech_to_text_from_audio_data env audio_data)
       ++ [CallConversation user_text;
           CallSynthesis "Error: AI Project Client is not initialized. Check server logs.";
           SpeakText "Error: AI Project Client is not initialized. Check server logs."])%list
  /\ List.existsb is_agent_call (trace (chat_endpoint env file)) = false
  /\ forall result,
       speak_text env "Error: AI Project Client is not initialized. Check server logs."
       = inr result ->
       sr_reason result = SynthesizingAudioCompleted ->
       outcome_of (chat_endpoint env file)
       = Return {| content := sr_audio_data result;
                   status_code := 200;
                   media_type := "audio/wav" |}.
Proof.
  intros Hc Hf Hs Hne.
  pose proof (agent_response_no_client env user_text Hc) as Hg.
  assert (Hg' : outcome_of (get_agent_response env user_text)
                = Return "Error: AI Project Client is not initialized. Check server logs.")
    by now rewrite Hg.
  pose proof (pipeline_trace_after_recognition _ _ _ _ _ Hf Hs Hne Hg') as Ht.
  rewrite Hg in Ht. cbn [trace fst] in Ht.
  assert (Htrace :
            trace (chat_endpoint env file)
            = (UploadRead :: trace (speech_to_text_from_audio_data env audio_data)
                 ++ [CallConversation user_text;
                     CallSynthesis "Error: AI Project Client is not initialized. Check server logs.";
                     SpeakText "Error: AI Project Client is not initialized. Check server logs."])%list).
  { rewrite endpoint_trace. exact Ht. }
  split; [exact Htrace|]. split.
  - rewrite Htrace. cbn [List.existsb is_agent_call orb].
    rewrite List.existsb_app. cbn [List.existsb is_agent_call orb].
    rewrite orb_false_r.
    destruct (List.existsb is_agent_call
                (trace (speech_to_text_from_audio_data env audio_data))) eqn:He;
      [|reflexivity].
    apply List.existsb_exists in He as (ev & Hin & Hev).
    pose proof (existsb_false_in _ _ _ (recognition_trace_upstream env audio_data) Hin)
      as Hd.
    destruct ev; discriminate.
  - intros result Hr Hreason.
    rewrite endpoint_outcome, (pipeline_after_recognition _ _ _ _ _ Hf Hs Hne Hg'),
      (synthesis_on_report _ _ _ Hr). cbn [outcome_of snd].
    now rewrite Hreason.
Qed.

Lemma uninitialized_agent_still_answers_witness :
  outcome_of
    (chat_endpoint
       (Examples.services (inr (Examples.heard "hello"))
          (inr (Examples.synthesis SynthesizingAudioCompleted)) None)
       (Examples.upload Examples.clip_16k_mono))
  = Return {| content := Examples.reply_audio;
              status_code := 200;
              media_type := "audio/wav" |}.
Proof.
  exact (proj2 (proj2 (uninitialized_agent_still_answers
                         (Examples.services (inr (Examples.heard "hello"))
                            (inr (Examples.synthesis SynthesizingAudioCompleted))
                            None)
                         (Examples.upload Examples.clip_16k_mono)
                         Examples.clip_16k_mono "hello"
                         eq_refl eq_refl eq_refl ltac:(discriminate)))
           (Examples.synthesis SynthesizingAudioCompleted) eq_refl eq_refl).
Defined.

(** ** Start-up *)

(** X7.  Importing the module aborts exactly when a required variable
    is missing or empty, the speech pair being checked before the agent
    pair: it raises the speech [RuntimeError] iff SPEECH_KEY or
    SPEECH_REGION is missing or empty, the agent [RuntimeError] iff
    those two are set and AI_PROJECT_ENDPOINT or AGENT_ID is missing or
    empty, and it completes iff all four are set, whether or not the
    agent client can be constructed. *)
Theorem startup_fails_fast environ connect :
  (startup environ connect
   = Raise (Exception "SPEECH_KEY and SPEECH_REGION environment variables are required.")
   <-> present (environ "SPEECH_KEY") = None
       \/ present (environ "SPEECH_REGION") = None)
  /\ (startup environ connect
      = Raise (Exception
                 "AI_PROJECT_ENDPOINT and AGENT_ID environment variables are required.")
      <-> present (environ "SPEECH_KEY") <> None
          /\ present (environ "SPEECH_REGION") <> None
          /\ (present (environ "AI_PROJECT_ENDPOINT") = None
              \/ present (environ "AGENT_ID") = None))
  /\ ((exists globals, startup environ connect = Return globals)
      <-> present (environ "SPEECH_KEY") <> None
          /\ present (environ "SPEECH_REGION") <> None
          /\ present (environ "AI_PROJECT_ENDPOINT") <> None
          /\ present (environ "AGENT_ID") <> None).
Proof.
  unfold startup.
  destruct (present (environ "SPEECH_KEY")) as [key|];
    destruct (present (environ "SPEECH_REGION")) as [speech_region|];
    [destruct (present (environ "AI_PROJECT_ENDPOINT")) as [project_endpoint|];
     destruct (present (environ "AGENT_ID")) as [agent|] | | |];
    (split; [|split]); split;
    try discriminate; try (intros [H|H]; discriminate);
    try (intros [globals H]; discriminate);
    try (intros (H1 & H2 & H3); first [congruence | destruct H3; congruence]);
    try (intros (H1 & H2 & H3 & H4); congruence);
    try (intros _; repeat split; first [discriminate | now left | now right]);
    try (now left); try (now right); try reflexivity;
    try (intros _; eauto).
Qed.

(** X8.  A completed start-up leaves a speech configuration whose
    synthesis output format is 24 kHz 16-bit mono RIFF and whose
    subscription is SPEECH_KEY; it is built from SPEECH_ENDPOINT when
    that variable is set and not empty, and then holds no region
    although SPEECH_REGION had to be set, and from SPEECH_REGION
    otherwise.  The agent identifier is AGENT_ID. *)
Theorem startup_speech_config environ connect globals :
  startup environ connect = Return globals ->
  speech_synthesis_output_format (speech_config globals)
  = Some Riff24Khz16BitMonoPcm
  /\ present (environ "SPEECH_KEY") = Some (subscription (speech_config globals))
  /\ present (environ "SPEECH_REGION") <> None
  /\ match present (environ "SPEECH_ENDPOINT") with
     | Some speech_endpoint =>
         endpoint (speech_config globals) = Some speech_endpoint /\
         region (speech_config globals) = None
     | None =>
         endpoint (speech_config globals) = None /\
         region (speech_config globals) = present (environ "SPEECH_REGION")
     end
  /\ present (environ "AGENT_ID") = Some (g_AGENT_ID globals).
Proof.
  unfold startup.
  destruct (present (environ "SPEECH_KEY")) as [key|]; [|discriminate].
  destruct (present (environ "SPEECH_REGION")) as [speech_region|];
    [|discriminate].
  destruct (present (environ "AI_PROJECT_ENDPOINT")) as [project_endpoint|];
    [|discriminate].
  destruct (present (environ "AGENT_ID")) as [agent|]; [|discriminate].
  intros H. injection H as <-. cbn.
  destruct (present (environ "SPEECH_ENDPOINT")); cbn; repeat split; discriminate.
Qed.

Lemma startup_speech_config_witness :
  exists globals,
    startup Examples.environ_with_endpoint Examples.no_credentials = Return globals
    /\ endpoint (speech_config globals) = Some "https://speech.example"
    /\ region (speech_config globals) = None
    /\ speech_synthesis_output_format (speech_config globals)
       = Some Riff24Khz16BitMonoPcm.
Proof.
  eexists. split; [reflexivity|].
  pose proof (startup_speech_config Examples.environ_with_endpoint
                Examples.no_credentials _ eq_refl) as (Hfmt & _ & _ & Hsel & _).
  cbn in Hsel. destruct Hsel as [He Hr]. repeat split; assumption.
Defined.

(** X9.  A failure to construct the agent client does not abort the
    start-up: with the four variables set, the module comes up with no
    client, and from then on every conversation turn is answered with
    the fixed diagnostic without any call to the agent backend; when
    the construction succeeds, the client it returned is the one the
    requests use. *)
Theorem startup_without_agent_client environ connect project_endpoint :
  present (environ "SPEECH_KEY") <> None ->
  present (environ "SPEECH_REGION") <> None ->
  present (environ "AI_PROJECT_ENDPOINT") = Some project_endpoint ->
  present (environ "AGENT_ID") <> None ->
  exists globals,
    startup environ connect = Return globals /\
    (forall client,
        connect project_endpoint = inr client ->
        g_project_client globals = Some client) /\
    (forall message,
        connect project_endpoint = inl message ->
        g_project_client globals = None /\
        forall reader recognizer synthesizer user_text,
          get_agent_response
            (services_of globals reader recognizer synthesizer) user_text
          = ([CallConversation user_text],
             Return "Error: AI Project Client is not initialized. Check server logs.")).
Proof.
  intros Hk Hr He Ha. unfold startup.
  destruct (present (environ "SPEECH_KEY")) as [key|]; [|congruence].
  destruct (present (environ "SPEECH_REGION")) as [speech_region|]; [|congruence].
  rewrite He.
  destruct (present (environ "AGENT_ID")) as [agent|]; [|congruence].
  eexists. split; [reflexivity|]. cbn [g_project_client]. split.
  - intros client Hc. now rewrite Hc.
  - intros message Hc. rewrite Hc. split; [reflexivity|].
    intros reader recognizer synthesizer user_text.
    now apply agent_response_no_client.
Qed.

Lemma startup_without_agent_client_witness :
  exists globals,
    startup Examples.environ Examples.no_credentials = Return globals /\
    g_project_client globals = None /\
    get_agent_response
      (services_of globals Examples.canonical_wave_open
         (fun _ _ _ => inl "") (fun _ _ => inl ""))
      "hello"
    = ([CallConversation "hello"],
       Return "Error: AI Project Client is not initialized. Check server logs.").
Proof.
  destruct (startup_without_agent_client Examples.environ Examples.no_credentials
              "https://project.example"
              ltac:(discriminate) ltac:(discriminate) eq_refl ltac:(discriminate))
    as (globals & Hs & _ & Hfail).
  exists globals. split; [exact Hs|].
  destruct (Hfail "DefaultAzureCredential failed to retrieve a token" eq_refl)
    as [Hnone Hturn].
  split; [exact Hnone | apply Hturn].
Defined.

(** * Further properties of the client *)

Lemma autoplays_app (a b : list App.ui_event) :
  App.autoplays (a ++ b)%list = (App.autoplays a ++ App.autoplays b)%list.
Proof.
  induction a as [|ev a IH]; simpl; [reflexivity|].
  destruct ev as [container data [|]| |]; simpl; now rewrite IH.
Qed.

Lemma errors_app (a b : list App.ui_event) :
  App.errors (a ++ b)%list = (App.errors a ++ App.errors b)%list.
Proof.
  induction a as [|ev a IH]; simpl; [reflexivity|].
  destruct ev; simpl; now rewrite IH.
Qed.

Lemma display_history_quiet st :
  App.autoplays (App.display_history st) = []
  /\ App.errors (App.display_history st) = [].
Proof.
  unfold App.display_history. now induction (App.messages st).
Qed.

(** What is left marked for autoplay once the handler has run. *)
Lemma autoplay_handler_run st :
  App.messages (snd (App.autoplay_handler st)) = App.messages st
  /\ App.errors (fst (App.autoplay_handler st)) = []
  /\ App.autoplays (fst (App.autoplay_handler st))
     = match App.audio_to_play st with
       | Some clip => if nonempty clip then [clip] else []
       | None => []
       end
  /\ App.audio_to_play (snd (App.autoplay_handler st))
     = match App.audio_to_play st with
       | Some clip => if nonempty clip then None else Some clip
       | None => None
       end.
Proof.
  unfold App.autoplay_handler.
  destruct (App.audio_to_play st) as [clip|] eqn:Ha.
  - destruct (nonempty clip); cbn [fst snd App.messages App.audio_to_play
                                     App.errors App.autoplays];
      [|rewrite Ha]; now repeat split.
  - cbn [fst snd App.errors App.autoplays]. rewrite Ha. now repeat split.
Qed.

(** One run of the main logic, case by case. *)
Lemma main_logic_run post wav_audio_data st :
  let posted :=
    match wav_audio_data with
    | Some data => if App.differs data (App.last_audio st) then Some data else None
    | None => None
    end in
  App.autoplays (fst (App.main_logic post wav_audio_data st)) = []
  /\ match posted with
     | None => App.main_logic post wav_audio_data st = ([], st)
     | Some data =>
         match post data with
         | inr response =>
             if (App.status_code response =? 200)%Z
             then
               App.messages (snd (App.main_logic post wav_audio_data st))
               = (App.messages st
                    ++ [{| App.role := "user"; App.audio := data |};
                        {| App.role := "assistant";
                           App.audio := App.content response |}])%list
               /\ App.audio_to_play (snd (App.main_logic post wav_audio_data st))
                  = Some (App.content response)
               /\ App.errors (fst (App.main_logic post wav_audio_data st)) = []
             else
               App.messages (snd (App.main_logic post wav_audio_data st))
               = (App.messages st
                    ++ [{| App.role := "user"; App.audio := data |}])%list
               /\ App.audio_to_play (snd (App.main_logic post wav_audio_data st))
                  = App.audio_to_play st
               /\ App.errors (fst (App.main_logic post wav_audio_data st))
                  = ["Error from server: "
                     ++ str_of_int (App.status_code response)
                     ++ " - " ++ App.text response]
         | inl e =>
             App.messages (snd (App.main_logic post wav_audio_data st))
             = (App.messages st
                  ++ [{| App.role := "user"; App.audio := data |}])%list
             /\ App.audio_to_play (snd (App.main_logic post wav_audio_data st))
                = App.audio_to_play st
             /\ App.errors (fst (App.main_logic post wav_audio_data st))
                = ["An unexpected error occurred: " ++ e]
         end
     end.
Proof.
  unfold App.main_logic. destruct wav_audio_data as [data|]; [|now split].
  destruct (App.differs data (App.last_audio st)); [|now split].
  cbn zeta. destruct (post data) as [e|response].
  - now repeat split.
  - destruct (App.status_code response =? 200)%Z; repeat split.
    cbn [snd App.messages]. now rewrite <- List.app_assoc.
Qed.

(** The composition of the two into a run of the script. *)
Lemma script_run post wav_audio_data stored :
  exists played st1 acted,
    App.autoplay_handler (App.initialize stored) = (played, st1) /\
    App.main_logic post wav_audio_data st1 = (acted, snd (App.script post wav_audio_data stored)) /\
    fst (App.script post wav_audio_data stored)
    = (App.display_history (App.initialize stored) ++ played ++ acted)%list.
Proof.
  unfold App.script.
  destruct (App.autoplay_handler (App.initialize stored)) as [played st1].
  destruct (App.main_logic post wav_audio_data st1) as [acted st2] eqn:Hm.
  exists played, st1, acted. cbn [fst snd]. rewrite Hm. now repeat split.
Qed.

Lemma script_autoplays post wav_audio_data stored :
  App.autoplays (fst (App.script post wav_audio_data stored))
  = match App.audio_to_play (App.initialize stored) with
    | Some clip => if nonempty clip then [clip] else []
    | None => []
    end.
Proof.
  destruct (script_run post wav_audio_data stored)
    as (played & st1 & acted & Ha & Hm & ->).
  destruct (autoplay_handler_run (App.initialize stored)) as (_ & _ & Hp & _).
  destruct (main_logic_run post wav_audio_data st1) as [Hq _].
  rewrite Ha in Hp. rewrite Hm in Hq. simpl in Hp, Hq.
  rewrite !autoplays_app, (proj1 (display_history_quiet _)), Hp, Hq.
  simpl. apply List.app_nil_r.
Qed.

(** What a run appends to the log. *)
Lemma script_messages post wav_audio_data stored :
  App.messages (snd (App.script post wav_audio_data stored))
  = (App.messages (App.initialize stored)
       ++ match wav_audio_data with
          | None => []
          | Some data =>
              if App.differs data (App.last_audio (App.initialize stored))
              then
                {| App.role := "user"; App.audio := data |}
                :: match post data with
                   | inr response =>
                       if (App.status_code response =? 200)%Z
                       then [{| App.role := "assistant";
                                App.audio := App.content response |}]
                       else []
                   | inl _ => []
                   end
              else []
          end)%list.
Proof.
  destruct (script_run post wav_audio_data stored) as (played & st1 & acted & Ha & Hm & _).
  destruct (autoplay_handler_run (App.initialize stored)) as (Hmsg & _).
  destruct (autoplay_handler_spec (App.initialize stored)) as [_ Hlast].
  rewrite Ha in Hmsg, Hlast. simpl in Hmsg, Hlast.
  destruct (main_logic_run post wav_audio_data st1) as [_ Hcase].
  rewrite Hm in Hcase. rewrite Hlast in Hcase. rewrite <- Hmsg.
  destruct wav_audio_data as [data|]; simpl in Hcase.
  - destruct (App.differs data (App.last_audio (App.initialize stored))).
    + destruct (post data) as [e|response].
      * now destruct Hcase as [-> _].
      * destruct (App.status_code response =? 200)%Z;
          now destruct Hcase as [-> _].
    + injection Hcase as _ <-. now rewrite List.app_nil_r.
  - injection Hcase as _ <-. now rewrite List.app_nil_r.
Qed.

(** X10.  The session log only grows, and by what the run did: a run
    that posts nothing leaves it as it was; a run that posts appends
    the user's clip, followed by the assistant's reply when and only
    when the answer had status 200, so the clip stays in the log when
    the server fails.  Over any number of runs the earlier log remains
    a prefix of the later one. *)
Theorem session_log_grows post wav_audio_data stored :
  App.messages (snd (App.script post wav_audio_data stored))
  = (App.messages (App.initialize stored)
       ++ match wav_audio_data with
          | None => []
          | Some data =>
              if App.differs data (App.last_audio (App.initialize stored))
              then
                {| App.role := "user"; App.audio := data |}
                :: match post data with
                   | inr response =>
                       if (App.status_code response =? 200)%Z
                       then [{| App.role := "assistant";
                                App.audio := App.content response |}]
                       else []
                   | inl _ => []
                   end
              else []
          end)%list
  /\ forall inputs,
       exists added,
         App.messages (App.initialize (snd (App.reruns inputs stored)))
         = (App.messages (App.initialize stored) ++ added)%list.
Proof.
  split; [apply script_messages|].
  intros inputs. revert stored.
  induction inputs as [|[w p] later IH]; intros stored.
  - exists []. simpl. now rewrite List.app_nil_r.
  - cbn [App.reruns].
    destruct (App.script p w stored) as [events st] eqn:Hs.
    destruct (IH (Some st)) as [added Hadded].
    destruct (App.reruns later (Some st)) as [events' final]. cbn [snd] in *.
    rewrite Hadded. cbn [App.initialize].
    pose proof (script_messages p w stored) as H1. rewrite Hs in H1. cbn [snd] in H1.
    rewrite H1, <- List.app_assoc. eauto.
Qed.

(** X11.  A round trip that fails is reported and changes nothing but
    the log: for an answer whose status is not 200 the run shows one
    error, made of the status code in decimal and the answer's text;
    for a transport exception it shows one error with the exception's
    message; in both cases no clip is marked for autoplay by the run,
    so the next run plays nothing.  An answer with status 200 shows no
    error. *)
Theorem failed_round_trip_is_reported post stored data :
  App.last_audio (App.initialize stored) <> Some data ->
  (forall response,
      post data = inr response ->
      App.status_code response <> 200 ->
      App.errors (fst (App.script post (Some data) stored))
      = ["Error from server: " ++ str_of_int (App.status_code response)
         ++ " - " ++ App.text response]
      /\ forall post' wav_audio_data,
           App.autoplays
             (fst (App.script post' wav_audio_data
                     (Some (snd (App.script post (Some data) stored)))))
           = [])
  /\ (forall e,
        post data = inl e ->
        App.errors (fst (App.script post (Some data) stored))
        = ["An unexpected error occurred: " ++ e]
        /\ forall post' wav_audio_data,
             App.autoplays
               (fst (App.script post' wav_audio_data
                       (Some (snd (App.script post (Some data) stored)))))
             = [])
  /\ (forall response,
        post data = inr response ->
        App.status_code response = 200 ->
        App.errors (fst (App.script post (Some data) stored)) = []).
Proof.
  intros Hne. apply differs_true in Hne.
  destruct (script_run post (Some data) stored)
    as (played & st1 & acted & Ha & Hm & Hev).
  destruct (autoplay_handler_run (App.initialize stored)) as (_ & Herr & _ & Hmark).
  destruct (autoplay_handler_spec (App.initialize stored)) as [_ Hlast].
  rewrite Ha in Herr, Hmark, Hlast. simpl in Herr, Hmark, Hlast.
  destruct (main_logic_run post (Some data) st1) as [_ Hcase].
  rewrite Hm in Hcase. rewrite Hlast, Hne in Hcase. cbn [fst snd] in Hcase.
  assert (Hquiet : forall clip,
             App.audio_to_play (snd (App.script post (Some data) stored))
             = App.audio_to_play st1 ->
             forall post' w,
               App.autoplays
                 (fst (App.script post' w
                         (Some (snd (App.script post (Some data) stored)))))
               = clip -> clip = []).
  { intros clip Hsame post' w <-. rewrite script_autoplays.
    cbn [App.initialize]. rewrite Hsame, Hmark.
    destruct (App.audio_to_play (App.initialize stored)) as [c|]; [|reflexivity].
    destruct (nonempty c) eqn:Hc; [reflexivity|]. now rewrite Hc. }
  rewrite Hev, !errors_app, (proj2 (display_history_quiet _)), Herr.
  cbn [List.app]. repeat split.
  - rewrite H in Hcase. apply Z.eqb_neq in H0. rewrite H0 in Hcase.
    now destruct Hcase as (_ & _ & ->).
  - intros post' w. rewrite H in Hcase. apply Z.eqb_neq in H0.
    rewrite H0 in Hcase. destruct Hcase as (_ & Hsame & _).
    now apply (Hquiet _ Hsame post' w).
  - rewrite H in Hcase. now destruct Hcase as (_ & _ & ->).
  - intros post' w. rewrite H in Hcase. destruct Hcase as (_ & Hsame & _).
    now apply (Hquiet _ Hsame post' w).
  - intros response Hp H200. rewrite Hp in Hcase.
    apply Z.eqb_eq in H200. rewrite H200 in Hcase.
    now destruct Hcase as (_ & _ & ->).
Qed.

(** A fresh session whose clip is answered with 503 "busy". *)
Lemma failed_round_trip_is_reported_witness :
  App.errors
    (fst (App.script (Examples.answers 503 [] "busy")
            (Some Examples.clip_16k_mono) None))
  = ["Error from server: 503 - busy"].
Proof.
  exact (proj1 (proj1 (failed_round_trip_is_reported
                         (Examples.answers 503 [] "busy") None
                         Examples.clip_16k_mono ltac:(discriminate))
                  {| App.status_code := 503; App.content := []; App.text := "busy" |}
                  eq_refl ltac:(discriminate))).
Defined.

(** A run that posts nothing ends in the state the autoplay handler
    left. *)
Lemma script_without_post post wav_audio_data stored :
  App.posts (fst (App.script post wav_audio_data stored)) = [] ->
  snd (App.script post wav_audio_data stored)
  = snd (App.autoplay_handler (App.initialize stored)).
Proof.
  intros Hposts.
  destruct (script_spec post wav_audio_data stored) as [Hp _].
  rewrite Hp in Hposts.
  destruct (script_run post wav_audio_data stored)
    as (played & st1 & acted & Ha & Hm & _).
  destruct (autoplay_handler_spec (App.initialize stored)) as [_ Hlast].
  rewrite Ha in Hlast. rewrite Ha. simpl in Hlast. cbn [snd].
  destruct (main_logic_run post wav_audio_data st1) as [_ Hcase].
  rewrite Hm, Hlast in Hcase.
  destruct wav_audio_data as [data|]; cbn zeta in Hcase.
  - destruct (App.differs data (App.last_audio (App.initialize stored)));
      [discriminate|]. now injection Hcase as _ <-.
  - now injection Hcase as _ <-.
Qed.

(** A round trip answered with 200 marks the answer for autoplay. *)
Lemma script_marks_reply post stored data response :
  App.last_audio (App.initialize stored) <> Some data ->
  post data = inr response ->
  App.status_code response = 200 ->
  App.audio_to_play (snd (App.script post (Some data) stored))
  = Some (App.content response).
Proof.
  intros Hne Hp H200. apply differs_true in Hne.
  destruct (script_run post (Some data) stored)
    as (played & st1 & acted & Ha & Hm & _).
  destruct (autoplay_handler_spec (App.initialize stored)) as [_ Hlast].
  rewrite Ha in Hlast. simpl in Hlast.
  destruct (main_logic_run post (Some data) st1) as [_ Hcase].
  rewrite Hm, Hlast, Hne, Hp in Hcase. cbn zeta in Hcase.
  apply Z.eqb_eq in H200. rewrite H200 in Hcase.
  cbn [snd] in Hcase. now destruct Hcase as (_ & -> & _).
Qed.

(** X12.  After a round trip answered with status 200 the reply is
    played by itself exactly once: the next run of the script plays it,
    once and whatever the recorder holds, provided it is not empty (an
    empty reply is never played); and when that next run is a mere
    refresh, with no clip or the same clip in the recorder, the run
    after it plays nothing. *)
Theorem autoplay_once post stored data response :
  App.last_audio (App.initialize stored) <> Some data ->
  post data = inr response ->
  App.status_code response = 200 ->
  (forall post' wav_audio_data,
      App.autoplays
        (fst (App.script post' wav_audio_data
                (Some (snd (App.script post (Some data) stored)))))
      = if nonempty (App.content response) then [App.content response] else [])
  /\ (forall post' wav_audio_data post'' wav_audio_data',
        wav_audio_data = None \/ wav_audio_data = Some data ->
        nonempty (App.content response) = true ->
        App.autoplays
          (fst (App.script post'' wav_audio_data'
                  (Some (snd (App.script post' wav_audio_data
                                (Some (snd (App.script post (Some data) stored))))))))
        = []).
Proof.
  intros Hne Hp H200.
  pose proof (script_marks_reply _ _ _ _ Hne Hp H200) as Hmark.
  destruct (script_spec post (Some data) stored) as [_ Hlast].
  rewrite (proj2 (differs_true _ _) Hne) in Hlast.
  split.
  - intros post' w. rewrite script_autoplays. cbn [App.initialize].
    now rewrite Hmark.
  - intros post' w post'' w' Hw Hplayed.
    rewrite script_autoplays. cbn [App.initialize].
    rewrite script_without_post.
    + destruct (autoplay_handler_run
                  (App.initialize (Some (snd (App.script post (Some data) stored)))))
        as (_ & _ & _ & Hafter).
      rewrite Hafter. cbn [App.initialize]. now rewrite Hmark, Hplayed.
    + destruct (script_spec post' w (Some (snd (App.script post (Some data) stored))))
        as [Hposts _].
      rewrite Hposts. cbn [App.initialize]. destruct Hw as [->| ->]; [reflexivity|].
      now rewrite (proj2 (differs_false _ _) Hlast).
Qed.

(** A fresh session, one clip answered with audio, then two refreshes:
    the reply is played in the first refresh and not in the second. *)
Lemma autoplay_once_witness :
  App.autoplays
    (fst (App.reruns
            [(Some Examples.clip_16k_mono,
              Examples.answers 200 Examples.reply_audio "");
             (Some Examples.clip_16k_mono,
              Examples.answers 200 Examples.reply_audio "");
             (Some Examples.clip_16k_mono,
              Examples.answers 200 Examples.reply_audio "")]
            None))
  = [Examples.reply_audio]
  /\ App.autoplays
       (fst (App.script (Examples.answers 200 Examples.reply_audio "")
               (Some Examples.clip_16k_mono)
               (Some (snd (App.script (Examples.answers 200 Examples.reply_audio "")
                             (Some Examples.clip_16k_mono) None)))))
     = [Examples.reply_audio].
Proof.
  split; [reflexivity|].
  exact (proj1 (autoplay_once (Examples.answers 200 Examples.reply_audio "") None
                  Examples.clip_16k_mono
                  {| App.status_code := 200;
                     App.content := Examples.reply_audio;
                     App.text := "" |}
                  ltac:(discriminate) eq_refl eq_refl)
           (Examples.answers 200 Examples.reply_audio "")
           (Some Examples.clip_16k_mono)).
Defined.

(** ** The session over many runs *)

Lemma last_item_app_cases {A} (a b : list A) :
  last_item (a ++ b)%list
  = match last_item b with
    | Some x => Some x
    | None => last_item a
    end.
Proof.
  induction b as [|x b _] using List.rev_ind.
  - now rewrite List.app_nil_r.
  - rewrite List.app_assoc. unfold last_item. rewrite !List.map_app.
    simpl. now rewrite !List.last_last.
Qed.

Lemma reruns_final wav_audio_data post later stored :
  snd (App.reruns ((wav_audio_data, post) :: later) stored)
  = snd (App.reruns later (Some (snd (App.script post wav_audio_data stored)))).
Proof.
  cbn [App.reruns].
  destruct (App.script post wav_audio_data stored) as [events st]. cbn [snd].
  now destruct (App.reruns later (Some st)).
Qed.

Lemma clips_of_app who (a b : list App.ChatMessage) :
  App.clips_of who (a ++ b)%list
  = (App.clips_of who a ++ App.clips_of who b)%list.
Proof. unfold App.clips_of. now rewrite List.filter_app, List.map_app. Qed.

(** X13.  What the session remembers as [last_audio] is the clip it
    posted last: after any number of runs it is the last payload posted
    in them, and it is unchanged when they posted nothing; in a fresh
    session it is [None] until the first post. *)
Theorem last_audio_is_last_post inputs stored :
  App.last_audio (App.initialize (snd (App.reruns inputs stored)))
  = match last_item (App.posts (fst (App.reruns inputs stored))) with
    | Some payload => Some payload
    | None => App.last_audio (App.initialize stored)
    end.
Proof.
  revert stored. induction inputs as [|[w p] later IH]; intros stored.
  - reflexivity.
  - rewrite reruns_final, reruns_cons, last_item_app_cases, IH.
    destruct (last_item (App.posts (fst (App.reruns later _)))) as [payload|];
      [reflexivity|].
    cbn [App.initialize].
    destruct (script_spec p w stored) as [Hp Hl]. rewrite Hp, Hl.
    destruct w as [data|]; [|reflexivity].
    now destruct (App.differs data (App.last_audio (App.initialize stored))).
Qed.

(** X14.  The log records what was sent: over any number of runs the
    clips logged under the role "user" are the clips logged before
    followed by the payloads posted, in the order of posting, and the
    log gains at most one assistant entry per post.  In a fresh session
    the user entries are exactly the posts. *)
Theorem log_records_posts inputs stored :
  App.clips_of "user"
    (App.messages (App.initialize (snd (App.reruns inputs stored))))
  = (App.clips_of "user" (App.messages (App.initialize stored))
       ++ App.posts (fst (App.reruns inputs stored)))%list
  /\ (List.length
        (App.clips_of "assistant"
           (App.messages (App.initialize (snd (App.reruns inputs stored)))))
      <= List.length (App.clips_of "assistant" (App.messages (App.initialize stored)))
         + List.length (App.posts (fst (App.reruns inputs stored))))%nat.
Proof.
  revert stored. induction inputs as [|[w p] later IH]; intros stored.
  - simpl. rewrite List.app_nil_r. split; [reflexivity | lia].
  - rewrite reruns_final, reruns_cons.
    destruct (IH (Some (snd (App.script p w stored)))) as [IHu IHa].
    cbn [App.initialize] in IHu, IHa.
    destruct (script_spec p w stored) as [Hp _].
    pose proof (script_messages p w stored) as Hm.
    rewrite IHu, Hm, !clips_of_app, Hp, <- !List.app_assoc.
    rewrite Hm, clips_of_app in IHa. rewrite !List.length_app in *.
    destruct w as [data|]; [|simpl in *; split; [reflexivity | lia]].
    destruct (App.differs data (App.last_audio (App.initialize stored)));
      [|simpl in *; split; [reflexivity | lia]].
    destruct (p data) as [e|response];
      [simpl in *; split; [reflexivity | lia]|].
    destruct (App.status_code response =? 200)%Z;
      simpl in *; split; try reflexivity; lia.
Qed.
